(** * Triple-buffered frame capture of the libvlcpp video-callback examples

    A shallow embedding of the [FrameCapture] class of
    [examples/video_callback/glfw_sample.cpp] and
    [examples/video_callback/sdl_opengl.cpp], over a small model of the
    OpenGL objects the class manipulates, followed by the properties of
    the slot indices, of the texture handles handed to the display loop
    and of the resource life cycle. *)

From stdpp Require Import base option list vector gmap strings.
From Stdlib Require Import NArith Lia.

Local Open Scope N_scope.

(** ** Machine types *)

(** [GLuint], [GLenum] and [uint32_t] are 32-bit unsigned integers.  The
    class only stores, compares and exchanges them, it never computes with
    them, so no wrap-around occurs and they are kept as [N]. *)
Abbreviation GLuint := N (only parsing).
Abbreviation GLenum := N (only parsing).
Abbreviation uint32_t := N (only parsing).

(** A decoded picture, as an opaque identifier: what the media engine
    draws into the render target. *)
Abbreviation picture := N (only parsing).

(** ** The OpenGL objects used by the class *)

Module GL.

Definition GL_NO_ERROR : GLenum := 0.
Definition GL_INVALID_VALUE : GLenum := 0x0501.
Definition GL_INVALID_OPERATION : GLenum := 0x0502.
Definition GL_RGBA : GLenum := 0x1908.

(** A texture object: the size of its level-0 image (0x0 until
    [glTexImage2D] gives it storage) and the picture last drawn into it
    (none after [glTexImage2D] with a null data pointer). *)
Record texture := Texture {
  tex_width : N;
  tex_height : N;
  tex_picture : option picture
}.

(** The part of a context the class touches.  Names are handed out from
    two counters, so a generated name is never one already in use; name 0
    is never generated (it denotes the default texture and the window
    framebuffer).  A framebuffer object is its colour attachment 0. *)
Record state := State {
  next_texture : GLuint;
  next_framebuffer : GLuint;
  textures : gmap N texture;
  framebuffers : gmap N (option GLuint);
  texture_binding : GLuint;
  framebuffer_binding : GLuint;
  max_texture_size : N;
  error : GLenum
}.

Definition set_next_texture (n : GLuint) (g : state) : state :=
  State n (next_framebuffer g) (textures g) (framebuffers g)
        (texture_binding g) (framebuffer_binding g) (max_texture_size g) (error g).
Definition set_next_framebuffer (n : GLuint) (g : state) : state :=
  State (next_texture g) n (textures g) (framebuffers g)
        (texture_binding g) (framebuffer_binding g) (max_texture_size g) (error g).
Definition set_textures (m : gmap N texture) (g : state) : state :=
  State (next_texture g) (next_framebuffer g) m (framebuffers g)
        (texture_binding g) (framebuffer_binding g) (max_texture_size g) (error g).
Definition set_framebuffers (m : gmap N (option GLuint)) (g : state) : state :=
  State (next_texture g) (next_framebuffer g) (textures g) m
        (texture_binding g) (framebuffer_binding g) (max_texture_size g) (error g).
Definition set_texture_binding (n : GLuint) (g : state) : state :=
  State (next_texture g) (next_framebuffer g) (textures g) (framebuffers g)
        n (framebuffer_binding g) (max_texture_size g) (error g).
Definition set_framebuffer_binding (n : GLuint) (g : state) : state :=
  State (next_texture g) (next_framebuffer g) (textures g) (framebuffers g)
        (texture_binding g) n (max_texture_size g) (error g).

(** An error is recorded only while the flag is clear. *)
Definition raise (e : GLenum) (g : state) : state :=
  State (next_texture g) (next_framebuffer g) (textures g) (framebuffers g)
        (texture_binding g) (framebuffer_binding g) (max_texture_size g)
        (if decide (error g = GL_NO_ERROR) then e else error g).

(** [glGetError]: returns the flag and clears it. *)
Definition glGetError (g : state) : GLenum * state :=
  (error g,
   State (next_texture g) (next_framebuffer g) (textures g) (framebuffers g)
         (texture_binding g) (framebuffer_binding g) (max_texture_size g)
         GL_NO_ERROR).

(** [n] consecutive names starting at [first]. *)
Fixpoint names (n : nat) (first : GLuint) : vec GLuint n :=
  match n with
  | O => [#]
  | S k => first ::: names k (N.succ first)
  end.

(** [glGenTextures(n, out)]: [n] unused texture names. *)
Definition glGenTextures (n : nat) (g : state) : vec GLuint n * state :=
  (names n (next_texture g),
   set_next_texture (next_texture g + N.of_nat n) g).

(** [glGenFramebuffers(n, out)]: [n] unused framebuffer names. *)
Definition glGenFramebuffers (n : nat) (g : state) : vec GLuint n * state :=
  (names n (next_framebuffer g),
   set_next_framebuffer (next_framebuffer g + N.of_nat n) g).

(** [glBindTexture(GL_TEXTURE_2D, t)]: a name bound for the first time
    gets its (empty) texture object, and is from then on in use: the
    counter moves past it. *)
Definition glBindTexture (t : GLuint) (g : state) : state :=
  set_texture_binding t
    (if decide (t = 0) then g else
     match textures g !! t with
     | Some _ => g
     | None =>
       set_next_texture (N.max (next_texture g) (N.succ t))
         (set_textures (<[t := Texture 0 0 None]> (textures g)) g)
     end).

(** The largest value of [GLsizei], a signed 32-bit integer. *)
Definition GLsizei_max : N := 2 ^ 31 - 1.

(** The largest size [glTexImage2D] accepts from the class.  The function
    takes its sizes as [GLsizei] and the class passes [uint32_t] members:
    a value above [GLsizei_max] arrives as a negative size.  A size is
    valid when it is not negative and not above [GL_MAX_TEXTURE_SIZE]. *)
Definition size_limit (g : state) : N := N.min GLsizei_max (max_texture_size g).
Arguments size_limit : simpl never.

(** [glTexImage2D(GL_TEXTURE_2D, 0, GL_RGBA, w, h, 0, GL_RGBA,
    GL_UNSIGNED_BYTE, nullptr)], with [w] and [h] the [uint32_t] values
    passed for the [GLsizei] parameters: storage of [w]x[h] texels with
    undefined contents for the bound texture; [GL_INVALID_VALUE] for a
    size that is negative as a [GLsizei] or beyond the implementation's
    limit.  The driver is taken to have the memory for a valid size:
    [GL_OUT_OF_MEMORY], after which the state of the context is undefined,
    is not part of the model. *)
Definition glTexImage2D (w h : N) (g : state) : state :=
  if decide (w ≤ size_limit g ∧ h ≤ size_limit g)
  then set_textures (<[texture_binding g := Texture w h None]> (textures g)) g
  else raise GL_INVALID_VALUE g.

(** [glBindFramebuffer(GL_FRAMEBUFFER, f)]: a name bound for the first
    time gets its framebuffer object, with nothing attached, and the
    counter moves past it. *)
Definition glBindFramebuffer (f : GLuint) (g : state) : state :=
  set_framebuffer_binding f
    (if decide (f = 0) then g else
     match framebuffers g !! f with
     | Some _ => g
     | None =>
       set_next_framebuffer (N.max (next_framebuffer g) (N.succ f))
         (set_framebuffers (<[f := None]> (framebuffers g)) g)
     end).

(** [glFramebufferTexture2D(GL_FRAMEBUFFER, GL_COLOR_ATTACHMENT0,
    GL_TEXTURE_2D, t, 0)]: attaches [t] (detaches for 0) to the bound
    framebuffer object; [GL_INVALID_OPERATION] on the window framebuffer. *)
Definition glFramebufferTexture2D (t : GLuint) (g : state) : state :=
  if decide (framebuffer_binding g = 0) then raise GL_INVALID_OPERATION g
  else set_framebuffers
         (<[framebuffer_binding g := if decide (t = 0) then None else Some t]>
            (framebuffers g)) g.

(** The colour attachment of the bound framebuffer object, if any. *)
Definition render_target (g : state) : option GLuint :=
  framebuffers g !! framebuffer_binding g ≫= id.

(** [glCheckFramebufferStatus(GL_FRAMEBUFFER) == GL_FRAMEBUFFER_COMPLETE]:
    the window framebuffer is complete; a framebuffer object is complete
    when its attachment is a texture with a non-empty image. *)
Definition framebuffer_complete (g : state) : bool :=
  if decide (framebuffer_binding g = 0) then true else
  match render_target g ≫= (λ t, textures g !! t) with
  | Some tex => bool_decide (0 < tex_width tex ∧ 0 < tex_height tex)
  | None => false
  end.

(** [glDeleteTextures]: names that are 0 or not in use are ignored; a
    deleted texture is unbound and detached from the bound framebuffer. *)
Definition delete_texture (g : state) (t : GLuint) : state :=
  if decide (t = 0) then g else
  match textures g !! t with
  | None => g
  | Some _ =>
    let g1 := set_textures (delete t (textures g)) g in
    let g2 := if decide (texture_binding g1 = t) then set_texture_binding 0 g1 else g1 in
    if decide (render_target g2 = Some t)
    then set_framebuffers (<[framebuffer_binding g2 := None]> (framebuffers g2)) g2
    else g2
  end.

Definition glDeleteTextures {n} (ts : vec GLuint n) (g : state) : state :=
  foldl delete_texture g (vec_to_list ts).

(** [glDeleteFramebuffers]: a deleted framebuffer that is bound gives the
    binding back to the window framebuffer. *)
Definition delete_framebuffer (g : state) (f : GLuint) : state :=
  if decide (f = 0) then g else
  match framebuffers g !! f with
  | None => g
  | Some _ =>
    let g1 := set_framebuffers (delete f (framebuffers g)) g in
    if decide (framebuffer_binding g1 = f) then set_framebuffer_binding 0 g1 else g1
  end.

Definition glDeleteFramebuffers {n} (fs : vec GLuint n) (g : state) : state :=
  foldl delete_framebuffer g (vec_to_list fs).

(** The media engine drawing picture [p]: it lands in the texture
    attached to the bound framebuffer object. *)
Definition draw (p : picture) (g : state) : state :=
  match render_target g with
  | Some t =>
    set_textures
      (alter (λ tex, Texture (tex_width tex) (tex_height tex) (Some p)) t (textures g)) g
  | None => g
  end.

(** A context in which nothing has been created yet. *)
Definition blank (limit : N) : state :=
  State 1 1 ∅ ∅ 0 0 limit GL_NO_ERROR.

(** The name counters are ahead of every name in use and of the
    bindings, and 0 is never handed out. *)
Definition wf (g : state) : Prop :=
  0 < next_texture g ∧ 0 < next_framebuffer g
  ∧ texture_binding g < next_texture g
  ∧ framebuffer_binding g < next_framebuffer g
  ∧ (∀ k, next_texture g ≤ k → textures g !! k = None)
  ∧ (∀ k, next_framebuffer g ≤ k → framebuffers g !! k = None).

(** The context with its error flag cleared. *)
Definition objects (g : state) : state := (glGetError g).2.

(** The four calls of one turn of the allocation loop. *)
Definition attach_new (w h : N) (tex fbo : GLuint) (g : state) : state :=
  glFramebufferTexture2D tex
    (glBindFramebuffer fbo (glTexImage2D w h (glBindTexture tex g))).

(** What the class owns in a context: objects and bindings, without the
    error flag. *)
Definition resources (g : state) :=
  (textures g, framebuffers g, texture_binding g, framebuffer_binding g).

End GL.

(** ** Structures of the libvlc interface *)

(** Modelled from the spec: the libvlc header that defines
    [libvlc_video_colorspace_t] is not among the sources; the spec names the
    BT.709 member, the other members are those of libvlc 4. *)
Inductive libvlc_video_colorspace_t :=
| libvlc_video_colorspace_BT601
| libvlc_video_colorspace_BT709
| libvlc_video_colorspace_BT2020.

(** Modelled from the spec: [libvlc_video_primaries_t] of the missing libvlc
    header; the spec names the BT.709 member. *)
Inductive libvlc_video_primaries_t :=
| libvlc_video_primaries_BT601_525
| libvlc_video_primaries_BT601_625
| libvlc_video_primaries_BT709
| libvlc_video_primaries_BT2020
| libvlc_video_primaries_DCI_P3
| libvlc_video_primaries_BT470_M.

(** Modelled from the spec: [libvlc_video_transfer_func_t] of the missing
    libvlc header; the spec names the sRGB member. *)
Inductive libvlc_video_transfer_func_t :=
| libvlc_video_transfer_func_LINEAR
| libvlc_video_transfer_func_SRGB
| libvlc_video_transfer_func_BT470_BG
| libvlc_video_transfer_func_BT470_M
| libvlc_video_transfer_func_BT709
| libvlc_video_transfer_func_PQ
| libvlc_video_transfer_func_SMPTE_240
| libvlc_video_transfer_func_HLG.

(** Modelled from the spec: [libvlc_video_orient_t] of the missing libvlc
    header; the spec names the top-left member. *)
Inductive libvlc_video_orient_t :=
| libvlc_video_orient_top_left
| libvlc_video_orient_top_right
| libvlc_video_orient_bottom_left
| libvlc_video_orient_bottom_right
| libvlc_video_orient_left_top
| libvlc_video_orient_left_bottom
| libvlc_video_orient_right_top
| libvlc_video_orient_right_bottom.

(** Modelled from the spec: [libvlc_video_render_cfg_t] of the missing libvlc
    header, reduced to the two fields the class reads. *)
Record libvlc_video_render_cfg_t := RenderCfg {
  width : uint32_t;
  height : uint32_t
}.

(** Modelled from the spec: [libvlc_video_output_cfg_t] of the missing libvlc
    header, the descriptor the class fills in. *)
Record libvlc_video_output_cfg_t := OutputCfg {
  opengl_format : GLenum;
  full_range : bool;
  colorspace : libvlc_video_colorspace_t;
  primaries : libvlc_video_primaries_t;
  transfer : libvlc_video_transfer_func_t;
  orientation : libvlc_video_orient_t
}.

#[global] Instance colorspace_eq_dec : EqDecision libvlc_video_colorspace_t.
Proof. solve_decision. Defined.
#[global] Instance primaries_eq_dec : EqDecision libvlc_video_primaries_t.
Proof. solve_decision. Defined.
#[global] Instance transfer_eq_dec : EqDecision libvlc_video_transfer_func_t.
Proof. solve_decision. Defined.
#[global] Instance orient_eq_dec : EqDecision libvlc_video_orient_t.
Proof. solve_decision. Defined.
#[global] Instance render_cfg_eq_dec : EqDecision libvlc_video_render_cfg_t.
Proof. solve_decision. Defined.
#[global] Instance output_cfg_eq_dec : EqDecision libvlc_video_output_cfg_t.
Proof. solve_decision. Defined.

(** ** The class *)

(** The two examples carry the same class; they differ in how the arrays
    start out, in the error checks and in one field of the descriptor. *)
Inductive backend := GLFW | SDL.

#[global] Instance backend_eq_dec : EqDecision backend.
Proof. solve_decision. Defined.

Record FrameCapture := Build_FrameCapture {
  fbos_ : vec GLuint 3;
  textures_ : vec GLuint 3;
  frame_render_id_ : uint32_t;
  frame_swap_id_ : uint32_t;
  frame_present_id_ : uint32_t;
  frame_width_ : uint32_t;
  frame_height_ : uint32_t;
  frame_acquired_ : bool
}.

(** What the examples print on [std::cerr]. *)
Inductive message :=
| SizeChanged (w h : uint32_t)
| IncompleteFbo
| GLError (e : GLenum).

(** The object, the context of the decoder thread and the error stream. *)
Record world := World {
  self : FrameCapture;
  gl : GL.state;
  cerr : list message
}.

(** How a call ends when it does not return: [std::out_of_range] from
    [std::array::at], [exit(EXIT_FAILURE)], or a failed [assert]. *)
Inductive stop := OutOfRange | ExitFailure | AssertFailed.

Inductive outcome (A : Type) :=
| Returns (a : A)
| Stops (s : stop).
Arguments Returns {A} a.
Arguments Stops {A} s.

(** Member functions: state passing over [world], with early exit. *)
Definition M (A : Type) : Type := world → outcome A * world.

#[global] Instance M_ret : MRet M := λ A a w, (Returns a, w).
#[global] Instance M_bind : MBind M := λ A B f m w,
  match m w with
  | (Returns a, w') => f a w'
  | (Stops s, w') => (Stops s, w')
  end.

Definition stops {A} (s : stop) : M A := λ w, (Stops s, w).
Definition this : M FrameCapture := λ w, (Returns (self w), w).
Definition update (f : FrameCapture → FrameCapture) : M unit :=
  λ w, (Returns (), World (f (self w)) (gl w) (cerr w)).
Definition gl_do (f : GL.state → GL.state) : M unit :=
  λ w, (Returns (), World (self w) (f (gl w)) (cerr w)).
Definition gl_get {A} (f : GL.state → A * GL.state) : M A :=
  λ w, (Returns (f (gl w)).1, World (self w) (f (gl w)).2 (cerr w)).
Definition gl_read {A} (f : GL.state → A) : M A :=
  λ w, (Returns (f (gl w)), w).
Definition print (m : message) : M unit :=
  λ w, (Returns (), World (self w) (gl w) (cerr w ++ [m])).
Definition when (c : bool) (m : M unit) : M unit :=
  if c then m else mret ().

(** [a.at(i)]: bounds-checked access. *)
Definition at_ {n} (a : vec GLuint n) (i : uint32_t) : M GLuint :=
  match vec_to_list a !! N.to_nat i with
  | Some x => mret x
  | None => stops OutOfRange
  end.

(** [std::swap] on two of the three indices. *)
Definition swap_present_swap (fc : FrameCapture) : FrameCapture :=
  Build_FrameCapture (fbos_ fc) (textures_ fc) (frame_render_id_ fc)
    (frame_present_id_ fc) (frame_swap_id_ fc)
    (frame_width_ fc) (frame_height_ fc) (frame_acquired_ fc).
Definition swap_render_swap (fc : FrameCapture) : FrameCapture :=
  Build_FrameCapture (fbos_ fc) (textures_ fc) (frame_swap_id_ fc)
    (frame_render_id_ fc) (frame_present_id_ fc)
    (frame_width_ fc) (frame_height_ fc) (frame_acquired_ fc).
Definition set_frame_acquired (b : bool) (fc : FrameCapture) : FrameCapture :=
  Build_FrameCapture (fbos_ fc) (textures_ fc) (frame_render_id_ fc)
    (frame_swap_id_ fc) (frame_present_id_ fc)
    (frame_width_ fc) (frame_height_ fc) b.
Definition set_frame_size (w h : uint32_t) (fc : FrameCapture) : FrameCapture :=
  Build_FrameCapture (fbos_ fc) (textures_ fc) (frame_render_id_ fc)
    (frame_swap_id_ fc) (frame_present_id_ fc) w h (frame_acquired_ fc).
Definition set_textures_ (a : vec GLuint 3) (fc : FrameCapture) : FrameCapture :=
  Build_FrameCapture (fbos_ fc) a (frame_render_id_ fc)
    (frame_swap_id_ fc) (frame_present_id_ fc)
    (frame_width_ fc) (frame_height_ fc) (frame_acquired_ fc).
Definition set_fbos_ (a : vec GLuint 3) (fc : FrameCapture) : FrameCapture :=
  Build_FrameCapture a (textures_ fc) (frame_render_id_ fc)
    (frame_swap_id_ fc) (frame_present_id_ fc)
    (frame_width_ fc) (frame_height_ fc) (frame_acquired_ fc).

(** The constructors.  [sdl_opengl.cpp] value-initialises both arrays;
    [glfw_sample.cpp] leaves them uninitialised, so their contents are
    whatever the memory holds ([junk_fbos], [junk_textures]). *)
Definition FrameCapture_new (b : backend) (junk_fbos junk_textures : vec GLuint 3)
  : FrameCapture :=
  match b with
  | SDL => Build_FrameCapture [# 0; 0; 0] [# 0; 0; 0] 0 1 2 0 0 false
  | GLFW => Build_FrameCapture junk_fbos junk_textures 0 1 2 0 0 false
  end.

(** [CHECK_GL_ERRORS()]: in [glfw_sample.cpp] a pending error is fetched
    and reported, in [sdl_opengl.cpp] it fails an [assert]. *)
Definition CHECK_GL_ERRORS (b : backend) : M unit :=
  err ← gl_get GL.glGetError;
  if decide (err = GL.GL_NO_ERROR) then mret ()
  else match b with
       | GLFW => print (GLError err)
       | SDL => stops AssertFailed
       end.

(** [GLuint getNextFrame()], the whole body under the mutex. *)
Definition getNextFrame : M GLuint :=
  fc ← this;
  when (frame_acquired_ fc)
       (update swap_present_swap;; update (set_frame_acquired false));;
  fc ← this;
  at_ (textures_ fc) (frame_present_id_ fc).

(** [bool onSetup(cfg, out)]: both arguments are ignored. *)
Definition onSetup : M bool :=
  update (set_frame_size 0 0);;
  mret true.

(** [void onCleanup()]. *)
Definition onCleanup (b : backend) : M unit :=
  fc ← this;
  when (bool_decide (0 < frame_width_ fc) && bool_decide (0 < frame_height_ fc))
       (gl_do (GL.glDeleteTextures (textures_ fc));;
        gl_do (GL.glDeleteFramebuffers (fbos_ fc)));;
  when (bool_decide (b = GLFW)) (CHECK_GL_ERRORS b).

(** One turn of the loop of [onUpdateOutput] over the three slots.  The
    sampling parameters set by [glTexParameteri] are not part of the
    model. *)
Definition allocate_slot (b : backend) (w h : uint32_t) (slot : GLuint * GLuint) : M unit :=
  let '(tex, fbo) := slot in
  gl_do (GL.glBindTexture tex);;
  gl_do (GL.glTexImage2D w h);;
  gl_do (GL.glBindFramebuffer fbo);;
  gl_do (GL.glFramebufferTexture2D tex);;
  when (bool_decide (b = SDL)) (CHECK_GL_ERRORS b).

Fixpoint for_each {A} (body : A → M unit) (l : list A) : M unit :=
  match l with
  | [] => mret ()
  | x :: l' => body x;; for_each body l'
  end.

(** [bool onUpdateOutput(cfg, out)]; the descriptor is returned with the
    result. *)
Definition onUpdateOutput (b : backend) (cfg : libvlc_video_render_cfg_t)
    (out : libvlc_video_output_cfg_t) : M (bool * libvlc_video_output_cfg_t) :=
  fc ← this;
  when (bool_decide (frame_width_ fc ≠ width cfg) || bool_decide (frame_height_ fc ≠ height cfg))
       (print (SizeChanged (width cfg) (height cfg)));;
  texs ← gl_get (GL.glGenTextures 3);
  update (set_textures_ texs);;
  fbs ← gl_get (GL.glGenFramebuffers 3);
  update (set_fbos_ fbs);;
  update (set_frame_size (width cfg) (height cfg));;
  fc ← this;
  for_each (allocate_slot b (frame_width_ fc) (frame_height_ fc))
           (zip (vec_to_list (textures_ fc)) (vec_to_list (fbos_ fc)));;
  gl_do (GL.glBindTexture 0);;
  complete ← gl_read GL.framebuffer_complete;
  when (negb complete) (print IncompleteFbo;; stops ExitFailure);;
  when (bool_decide (b = SDL)) (CHECK_GL_ERRORS b);;
  fbo ← at_ (fbos_ fc) (frame_render_id_ fc);
  gl_do (GL.glBindFramebuffer fbo);;
  when (bool_decide (b = GLFW)) (CHECK_GL_ERRORS b);;
  mret (true,
        match b with
        | GLFW =>
          OutputCfg GL.GL_RGBA true libvlc_video_colorspace_BT709
                    libvlc_video_primaries_BT709 libvlc_video_transfer_func_SRGB
                    libvlc_video_orient_top_left
        | SDL =>
          OutputCfg GL.GL_RGBA true libvlc_video_colorspace_BT709
                    libvlc_video_primaries_BT709 libvlc_video_transfer_func_SRGB
                    (orientation out)
        end).

(** [void onSwap()], the whole body under the mutex. *)
Definition onSwap (b : backend) : M unit :=
  update swap_render_swap;;
  fc ← this;
  fbo ← at_ (fbos_ fc) (frame_render_id_ fc);
  gl_do (GL.glBindFramebuffer fbo);;
  update (set_frame_acquired true);;
  when (bool_decide (b = GLFW)) (CHECK_GL_ERRORS b).

(** The media engine drawing a decoded picture into the bound target. *)
Definition engine_draw (p : picture) : M unit := gl_do (GL.draw p).

(** ** Calls and traces *)

(** What the two threads can do to the object: the display loop polls
    [getNextFrame]; the media engine invokes the callbacks and, between
    them, draws decoded pictures.  The mutex makes [getNextFrame] and
    [onSwap] atomic with respect to each other, so an execution of the two
    threads is a sequence of calls. *)
Inductive call :=
| GetNextFrame
| OnSetup
| OnCleanup
| OnUpdateOutput (cfg : libvlc_video_render_cfg_t) (out : libvlc_video_output_cfg_t)
| OnSwap
| EngineDraw (p : picture).

#[global] Instance call_eq_dec : EqDecision call.
Proof. solve_decision. Defined.

Inductive result :=
| Handle (t : GLuint)
| Accepted (ok : bool)
| Negotiated (ok : bool) (out : libvlc_video_output_cfg_t)
| Done.

Definition step (b : backend) (c : call) : M result :=
  match c with
  | GetNextFrame => t ← getNextFrame; mret (Handle t)
  | OnSetup => ok ← onSetup; mret (Accepted ok)
  | OnCleanup => onCleanup b;; mret Done
  | OnUpdateOutput cfg out => r ← onUpdateOutput b cfg out; mret (Negotiated r.1 r.2)
  | OnSwap => onSwap b;; mret Done
  | EngineDraw p => engine_draw p;; mret Done
  end.

(** A sequence of calls; it ends with the first call that does not return. *)
Fixpoint run (b : backend) (cs : list call) : M (list result) :=
  match cs with
  | [] => mret []
  | c :: cs' => r ← step b c; rs ← run b cs'; mret (r :: rs)
  end.

(** The process right after the object has been constructed. *)
Definition boot (b : backend) (junk_fbos junk_textures : vec GLuint 3) (g : GL.state) : world :=
  World (FrameCapture_new b junk_fbos junk_textures) g [].

(** The states the object can be in: those some sequence of returning
    calls leads to, from a newly constructed object. *)
Definition initial (b : backend) (w : world) : Prop :=
  ∃ junk_fbos junk_textures g, w = boot b junk_fbos junk_textures g.

Definition reaches (b : backend) (w0 w : world) : Prop :=
  ∃ cs rs, run b cs w0 = (Returns rs, w).

Definition reachable (b : backend) (w : world) : Prop :=
  ∃ w0, initial b w0 ∧ reaches b w0 w.

(** The three role indices, in the order render, swap, present. *)
Definition roles (fc : FrameCapture) : list uint32_t :=
  [frame_render_id_ fc; frame_swap_id_ fc; frame_present_id_ fc].

(** The roles are a permutation of the three slots. *)
Definition roles_ok (fc : FrameCapture) : Prop := roles fc ≡ₚ [0; 1; 2].

(** A relation between the state before a member function and the state it
    leaves behind, however it ends. *)
Definition keeps {A} (R : relation world) (m : M A) : Prop :=
  ∀ w, R w (m w).2.

(** Relations that only look at the object. *)
Definition on_self (r : relation FrameCapture) : relation world :=
  λ w w', r (self w) (self w').

(** The value of [f] is unchanged. *)
Definition same {A B} (f : A → B) : relation A := λ a a', f a' = f a.

(** The property [P] is not lost. *)
Definition stable {A} (P : A → Prop) : relation A := λ a a', P a → P a'.

(** With no frame pending, none becomes pending and the roles stay what
    they are. *)
Definition stays_idle : relation FrameCapture := λ fc fc',
  frame_acquired_ fc = false →
  frame_acquired_ fc' = false ∧ roles fc' = roles fc.

(** Texture [t] of the context holds picture [p]. *)
Definition shows (g : GL.state) (t : GLuint) (p : picture) : Prop :=
  ∃ tex, GL.textures g !! t = Some tex ∧ GL.tex_picture tex = Some p.

(** The ring is allocated and wired: the texture names are distinct, each
    slot's framebuffer has the slot's texture attached, and the framebuffer
    of the render slot is the bound one. *)
Definition ring_ready (w : world) : Prop :=
  roles_ok (self w)
  ∧ NoDup (vec_to_list (textures_ (self w)))
  ∧ (∀ i tex fbo,
       vec_to_list (textures_ (self w)) !! i = Some tex →
       vec_to_list (fbos_ (self w)) !! i = Some fbo →
       tex ≠ 0 ∧ fbo ≠ 0
       ∧ GL.framebuffers (gl w) !! fbo = Some (Some tex)
       ∧ is_Some (GL.textures (gl w) !! tex))
  ∧ vec_to_list (fbos_ (self w)) !! N.to_nat (frame_render_id_ (self w))
    = Some (GL.framebuffer_binding (gl w)).

(** Relations that only look at the context. *)
Definition on_gl (r : relation GL.state) : relation world :=
  λ w w', r (gl w) (gl w').

(** ** The two threads as events *)

(** What the decoder thread and the display thread do in the steady state:
    the decoder draws a picture and calls [onSwap]; the display calls
    [getNextFrame]. *)
Inductive event :=
| Publish (p : picture)
| Acquire.

Definition calls_of (e : event) : list call :=
  match e with
  | Publish p => [EngineDraw p; OnSwap]
  | Acquire => [GetNextFrame]
  end.

(** The picture published last, [o] being the one before the events. *)
Definition latest (o : option picture) (es : list event) : option picture :=
  foldl (λ o e, match e with Publish p => Some p | Acquire => o end) o es.

(** The texture the next [getNextFrame] hands out: the one of the swap slot
    if a frame is pending, the one of the present slot otherwise. *)
Definition next_handle (w : world) : option GLuint :=
  vec_to_list (textures_ (self w))
    !! N.to_nat (if frame_acquired_ (self w) then frame_swap_id_ (self w)
                 else frame_present_id_ (self w)).

(** What a call does to the acquisition flag. *)
Definition pending_after (pending : bool) (c : call) : bool :=
  match c with
  | OnSwap => true
  | GetNextFrame => false
  | _ => pending
  end.

(** The descriptor each example writes. *)
Definition descriptor (b : backend) (out : libvlc_video_output_cfg_t)
  : libvlc_video_output_cfg_t :=
  OutputCfg GL.GL_RGBA true libvlc_video_colorspace_BT709
    libvlc_video_primaries_BT709 libvlc_video_transfer_func_SRGB
    match b with
    | GLFW => libvlc_video_orient_top_left
    | SDL => orientation out
    end.

(** The texture the next [getNextFrame] hands out holds the picture [o],
    if there is one. *)
Definition shows_latest (w : world) (o : option picture) : Prop :=
  ∀ p, o = Some p → ∃ t, next_handle w = Some t ∧ shows (gl w) t p.

(** The object between a returning [onUpdateOutput] and [onCleanup], with
    no other negotiation in between: the arrays hold the three texture names
    from [t] and the three framebuffer names from [f], the recorded size is
    positive, every other object of the context is as it was in [g0], each
    framebuffer of the ring has a texture of the ring attached, and one of
    them is bound. *)
Definition in_session (t f : GLuint) (g0 : GL.state) (w : world) : Prop :=
  textures_ (self w) = GL.names 3 t
  ∧ fbos_ (self w) = GL.names 3 f
  ∧ (0 < frame_width_ (self w) ∧ 0 < frame_height_ (self w))
  ∧ (∀ k, k ∉ vec_to_list (GL.names 3 t) →
          GL.textures (gl w) !! k = GL.textures g0 !! k)
  ∧ (∀ k, k ∉ vec_to_list (GL.names 3 f) →
          GL.framebuffers (gl w) !! k = GL.framebuffers g0 !! k)
  ∧ (∀ k, k ∈ vec_to_list (GL.names 3 f) →
          ∃ x, GL.framebuffers (gl w) !! k = Some (Some x)
               ∧ x ∈ vec_to_list (GL.names 3 t))
  ∧ GL.framebuffer_binding (gl w) ∈ vec_to_list (GL.names 3 f).

(** The calls of the steady state: the display polls, the decoder draws and
    publishes. *)
Definition steady (c : call) : bool :=
  match c with
  | GetNextFrame | OnSwap | EngineDraw _ => true
  | _ => false
  end.

(** ** The player of the examples *)

Module Media.

(** [VLC::Media::ParsedStatus].  The enumeration is defined in the vlcpp
    headers, which are not among the sources: its members here are the ones
    the switch of [toString] names, and [OtherStatus] stands for any value
    the switch does not name. *)
Inductive ParsedStatus :=
| Skipped
| Failed
| Done
| Timeout
| OtherStatus (v : Z).

(** [VLC::Media::Type], likewise: the members the switch of [toString]
    names, and [OtherType] for any other value. *)
Inductive Type_ :=
| Unknown
| File
| Directory
| Disc
| Stream
| Playlist
| OtherType (v : Z).

End Media.

(** [toString(VLC::Media::ParsedStatus)] of [sdl_opengl.cpp]. *)
Definition toString_ParsedStatus (enumClass : Media.ParsedStatus) : string :=
  match enumClass with
  | Media.Skipped => "Skipped"
  | Media.Failed => "Failed"
  | Media.Done => "Done"
  | Media.Timeout => "Timeout"
  | Media.OtherStatus _ => "VLC::Media::ParsedStatus::Unknown"
  end%string.

(** [toString(VLC::Media::Type)] of [sdl_opengl.cpp]. *)
Definition toString_Type (enumClass : Media.Type_) : string :=
  match enumClass with
  | Media.Unknown => "Unknown"
  | Media.File => "File"
  | Media.Directory => "Directory"
  | Media.Disc => "Disc"
  | Media.Stream => "Stream"
  | Media.Playlist => "Playlist"
  | Media.OtherType _ => "VLC::Media::Type::Unknown"
  end%string.

(** A media is known by the location it was created from. *)
Abbreviation media := string (only parsing).

(** What the handler of the parsed-changed event prints. *)
Inductive line :=
| ParsedStatusLine (status : string)
| TypeLine (type : string)
| SubitemsCountLine (count : nat).

(** The calls the player makes to the library, in the order it makes them;
    [Lock] and [Unlock] are on the list of subitems of the given media. *)
Inductive vlc_call :=
| ParseRequest (m : media)
| SetMedia (m : media)
| Play
| Lock (m : media)
| Unlock (m : media)
| Say (l : line).

(** What the library answers when asked about a media. *)
Record library := Library {
  media_type : media → Media.Type_;
  media_subitems : media → list media
}.

Record VLCPlayer := Build_VLCPlayer {
  medias_ : list media;
  current_media_id_ : Z
}.

(** The constructor (the event handlers it registers only print). *)
Definition VLCPlayer_new : VLCPlayer := Build_VLCPlayer [] 0.

(** [addMedia(uri)]: the media is appended and its parsing requested. *)
Definition addMedia (uri : string) (p : VLCPlayer) : VLCPlayer * list vlc_call :=
  (Build_VLCPlayer (medias_ p ++ [uri]) (current_media_id_ p), [ParseRequest uri]).

(** [currentMedia()].  The [int] index is converted to the 64-bit
    [size_t] for the comparison and for [at]; [sdl_opengl.cpp] asserts
    first, [glfw_sample.cpp] relies on [std::vector::at]. *)
Definition currentMedia (b : backend) (p : VLCPlayer) : outcome media :=
  let i := (current_media_id_ p mod 2 ^ 64)%Z in
  if bool_decide (b = SDL) && negb (bool_decide (i < Z.of_nat (length (medias_ p)))%Z)
  then Stops AssertFailed
  else match medias_ p !! Z.to_nat i with
       | Some m => Returns m
       | None => Stops OutOfRange
       end.

(** [play()]. *)
Definition play (b : backend) (p : VLCPlayer) : outcome (list vlc_call) :=
  match medias_ p with
  | [] => Stops AssertFailed
  | _ =>
    match currentMedia b p with
    | Returns m => Returns [SetMedia m; Play]
    | Stops s => Stops s
    end
  end.

(** The handler [addMedia] registers for the parsed-changed event of a
    media.  [kEnablePlaylistShuffling] is false, so the subitem played is
    the one at index 0; [sdl_opengl.cpp] prints two more lines. *)
Definition onParsedChanged (b : backend) (lib : library)
    (status : Media.ParsedStatus) (p : VLCPlayer) : outcome (list vlc_call) :=
  match currentMedia b p with
  | Stops s => Stops s
  | Returns m =>
    Returns
      ((match b with
        | SDL => [Say (ParsedStatusLine (toString_ParsedStatus status));
                  Say (TypeLine (toString_Type (media_type lib m)))]
        | GLFW => []
        end)
       ++ match media_type lib m with
          | Media.Playlist =>
            [Lock m; Say (SubitemsCountLine (length (media_subitems lib m)))]
            ++ match media_subitems lib m with
               | item :: _ => [SetMedia item; Play]
               | [] => []
               end
            ++ [Unlock m]
          | _ => []
          end)
  end.

(** The lock depth after a sequence of calls; [None] if an [Unlock] comes
    with nothing locked. *)
Definition lock_depth (calls : list vlc_call) : option nat :=
  foldl (λ d c, match c with
                | Lock _ => S <$> d
                | Unlock _ => d ≫= λ n, match n with O => None | S k => Some k end
                | _ => d
                end) (Some O) calls.

(** ** Reasoning about member functions *)

Lemma bind_unfold {A B} (m : M A) (f : A → M B) w :
  (m ≫= f) w = match m w with
               | (Returns a, w') => f a w'
               | (Stops s, w') => (Stops s, w')
               end.
Proof. reflexivity. Qed.

Lemma bind_returns {A B} (m : M A) (f : A → M B) w a w' :
  m w = (Returns a, w') → (m ≫= f) w = f a w'.
Proof. intros H. rewrite bind_unfold, H. reflexivity. Qed.

Lemma bind_inv {A B} (m : M A) (f : A → M B) w b w' :
  (m ≫= f) w = (Returns b, w') →
  ∃ a w1, m w = (Returns a, w1) ∧ f a w1 = (Returns b, w').
Proof.
  rewrite bind_unfold. destruct (m w) as [[a|s] w1]; [eauto | discriminate].
Qed.

Lemma run_cons_inv b c cs w rs w' :
  run b (c :: cs) w = (Returns rs, w') →
  ∃ r w1 rs', step b c w = (Returns r, w1) ∧ run b cs w1 = (Returns rs', w')
              ∧ rs = r :: rs'.
Proof.
  cbn [run]. intros H.
  apply bind_inv in H as (r & w1 & Hstep & H).
  apply bind_inv in H as (rs' & w2 & Hrun & H).
  inversion H; subst. eauto 10.
Qed.

Lemma run_app b cs1 cs2 w rs1 w1 rs2 w2 :
  run b cs1 w = (Returns rs1, w1) → run b cs2 w1 = (Returns rs2, w2) →
  run b (cs1 ++ cs2) w = (Returns (rs1 ++ rs2), w2).
Proof.
  revert w rs1. induction cs1 as [|c cs1 IH]; intros w rs1 H1 H2.
  - inversion H1; subst. exact H2.
  - apply run_cons_inv in H1 as (r & w' & rs' & Hstep & Hrun & ->).
    cbn [run app]. rewrite (bind_returns _ _ _ _ _ Hstep).
    rewrite (bind_returns _ _ _ _ _ (IH _ _ Hrun H2)). reflexivity.
Qed.

Lemma run_app_inv b cs1 cs2 w rs w2 :
  run b (cs1 ++ cs2) w = (Returns rs, w2) →
  ∃ rs1 w1 rs2, run b cs1 w = (Returns rs1, w1)
                ∧ run b cs2 w1 = (Returns rs2, w2) ∧ rs = rs1 ++ rs2.
Proof.
  revert w rs. induction cs1 as [|c cs1 IH]; intros w rs H.
  - exists [], w, rs. auto.
  - cbn [app] in H.
    apply run_cons_inv in H as (r & w' & rs' & Hstep & Hrun & ->).
    apply IH in Hrun as (rs1 & w1 & rs2 & H1 & H2 & ->).
    exists (r :: rs1), w1, rs2. split; [|auto].
    cbn [run]. rewrite (bind_returns _ _ _ _ _ Hstep).
    rewrite (bind_returns _ _ _ _ _ H1). reflexivity.
Qed.

Section keeps.
Context (R : relation world) `{!PreOrder R}.

Lemma keeps_ret {A} (a : A) : keeps R (mret a).
Proof. intros w. reflexivity. Qed.

Lemma keeps_stops {A} s : keeps R (@stops A s).
Proof. intros w. reflexivity. Qed.

Lemma keeps_this : keeps R this.
Proof. intros w. reflexivity. Qed.

Lemma keeps_gl_read {A} (f : GL.state → A) : keeps R (gl_read f).
Proof. intros w. reflexivity. Qed.

Lemma keeps_at {n} (a : vec GLuint n) i : keeps R (at_ a i).
Proof. intros w. unfold at_. destruct (_ !! _); reflexivity. Qed.

Lemma keeps_bind {A B} (m : M A) (f : A → M B) :
  keeps R m → (∀ a, keeps R (f a)) → keeps R (m ≫= f).
Proof.
  intros Hm Hf w. rewrite bind_unfold. specialize (Hm w).
  destruct (m w) as [[a|s] w1]; cbn in *; [|done].
  etrans; [exact Hm | apply Hf].
Qed.

Lemma keeps_if {A} (c : bool) (m1 m2 : M A) :
  keeps R m1 → keeps R m2 → keeps R (if c then m1 else m2).
Proof. by destruct c. Qed.

Lemma keeps_when (c : bool) m : keeps R m → keeps R (when c m).
Proof. intros. apply keeps_if; [done | apply keeps_ret]. Qed.

Lemma keeps_for_each {A} (body : A → M unit) l :
  (∀ x, keeps R (body x)) → keeps R (for_each body l).
Proof.
  intros Hb. induction l as [|x l IH]; cbn [for_each].
  - apply keeps_ret.
  - apply keeps_bind; auto.
Qed.

Lemma keeps_run b cs :
  (∀ c, c ∈ cs → keeps R (step b c)) → keeps R (run b cs).
Proof.
  induction cs as [|c cs IH]; intros H; cbn [run].
  - apply keeps_ret.
  - apply keeps_bind; [apply H; left|].
    intros r. apply keeps_bind; [|intros; apply keeps_ret].
    apply IH. intros c' Hc'. apply H. by right.
Qed.
End keeps.

#[global] Instance same_preorder {A B} (f : A → B) : PreOrder (same f).
Proof. split; [by intros a | intros a b c H1 H2; unfold same in *; congruence]. Qed.

#[global] Instance stable_preorder {A} (P : A → Prop) : PreOrder (stable P).
Proof. split; [intros a H; exact H | intros a b c H1 H2 H; auto]. Qed.

#[global] Instance on_self_preorder r `{!PreOrder r} : PreOrder (on_self r).
Proof.
  split; [intros w; unfold on_self; reflexivity|].
  intros a b c H1 H2. unfold on_self in *. by etrans.
Qed.

Section keeps_on_self.
Context (r : relation FrameCapture) `{!PreOrder r}.

Lemma keeps_gl_do f : keeps (on_self r) (gl_do f).
Proof. intros w. unfold on_self. cbn. reflexivity. Qed.

Lemma keeps_gl_get {A} (f : GL.state → A * GL.state) : keeps (on_self r) (gl_get f).
Proof. intros w. unfold on_self. cbn. reflexivity. Qed.

Lemma keeps_print m : keeps (on_self r) (print m).
Proof. intros w. unfold on_self. cbn. reflexivity. Qed.

Lemma keeps_update f : (∀ fc, r fc (f fc)) → keeps (on_self r) (update f).
Proof. intros H w. unfold on_self. cbn. apply H. Qed.

Lemma keeps_CHECK_GL_ERRORS b : keeps (on_self r) (CHECK_GL_ERRORS b).
Proof.
  unfold CHECK_GL_ERRORS. apply keeps_bind; [apply _ | apply keeps_gl_get |].
  intros e. destruct (decide _); [apply keeps_ret, _|].
  destruct b; [apply keeps_print | apply keeps_stops, _].
Qed.

Lemma keeps_allocate_slot b w h slot : keeps (on_self r) (allocate_slot b w h slot).
Proof.
  destruct slot as [tex fbo]. unfold allocate_slot.
  repeat (apply keeps_bind; [apply _ | apply keeps_gl_do | intros _]).
  apply keeps_when; [apply _ | apply keeps_CHECK_GL_ERRORS].
Qed.
End keeps_on_self.

(** Reduces [keeps (on_self r) m] to what the updates of the object do. *)
Ltac keeps_self :=
  repeat (first
    [ apply keeps_allocate_slot
    | apply keeps_CHECK_GL_ERRORS
    | apply keeps_bind
    | apply keeps_ret
    | apply keeps_stops
    | apply keeps_this
    | apply keeps_at
    | apply keeps_gl_read
    | apply keeps_when
    | apply keeps_for_each
    | apply keeps_gl_do
    | apply keeps_gl_get
    | apply keeps_print
    | apply keeps_update ];
    try (solve [apply _]);
    try lazymatch goal with |- ∀ _, _ => intros ? end).

(** Unfolds the plumbing of [M] in the goal. *)
Ltac run_M :=
  unfold mbind, M_bind, mret, M_ret, this, update, gl_do, gl_get, gl_read,
    print, stops, when, at_; cbn.

(** Splits the first primitive step off a returning computation. *)
Ltac bind_prim H :=
  let a := fresh "a" in
  let w := fresh "w" in
  let Hp := fresh "Hp" in
  apply bind_inv in H as (a & w & Hp & H);
  cbv [this update gl_do gl_get gl_read print] in Hp;
  injection Hp as <- <-.

(** *** What each member function does to the role indices *)

Lemma getNextFrame_render : keeps (on_self (same frame_render_id_)) getNextFrame.
Proof. unfold getNextFrame. keeps_self; reflexivity. Qed.

Lemma onSwap_present b : keeps (on_self (same frame_present_id_)) (onSwap b).
Proof. unfold onSwap. keeps_self; reflexivity. Qed.

Lemma swap_present_swap_roles_ok fc : roles_ok fc → roles_ok (swap_present_swap fc).
Proof.
  unfold roles_ok, roles. cbn. intros <-. apply perm_skip, perm_swap.
Qed.

Lemma swap_render_swap_roles_ok fc : roles_ok fc → roles_ok (swap_render_swap fc).
Proof.
  unfold roles_ok, roles. cbn. intros <-. apply perm_swap.
Qed.

Lemma step_roles_ok b c : keeps (on_self (stable roles_ok)) (step b c).
Proof.
  destruct c; unfold step, getNextFrame, onSetup, onCleanup, onUpdateOutput,
    onSwap, engine_draw; keeps_self; unfold stable;
    first [ apply swap_present_swap_roles_ok | apply swap_render_swap_roles_ok
          | intros H; exact H ].
Qed.

Lemma reaches_roles_ok b w0 w :
  roles_ok (self w0) → reaches b w0 w → roles_ok (self w).
Proof.
  intros H0 (cs & rs & Hrun).
  pose proof (keeps_run (on_self (stable roles_ok)) b cs
                (λ c _, step_roles_ok b c) w0) as H.
  rewrite Hrun in H. exact (H H0).
Qed.

Lemma initial_roles_ok b w0 : initial b w0 → roles_ok (self w0).
Proof. intros (jf & jt & g & ->). by destruct b; unfold roles_ok; cbn. Qed.

Lemma reachable_roles_ok b w : reachable b w → roles_ok (self w).
Proof.
  intros (w0 & Hi & Hr). eauto using reaches_roles_ok, initial_roles_ok.
Qed.

Lemma roles_ok_distinct fc :
  roles_ok fc →
  frame_render_id_ fc ≠ frame_swap_id_ fc
  ∧ frame_swap_id_ fc ≠ frame_present_id_ fc
  ∧ frame_render_id_ fc ≠ frame_present_id_ fc.
Proof.
  unfold roles_ok. intros H.
  assert (NoDup (roles fc)) as Hnd.
  { rewrite H. by apply (bool_decide_unpack _). }
  unfold roles in Hnd.
  apply NoDup_cons in Hnd as [H1 Hnd]. apply NoDup_cons in Hnd as [H2 _].
  set_solver.
Qed.

Lemma roles_ok_lt fc :
  roles_ok fc →
  frame_render_id_ fc < 3 ∧ frame_swap_id_ fc < 3 ∧ frame_present_id_ fc < 3.
Proof.
  unfold roles_ok. intros H.
  assert (∀ i, i ∈ roles fc → i < 3) as Hlt.
  { intros i. rewrite H. rewrite !elem_of_cons, elem_of_nil. lia. }
  unfold roles in Hlt. repeat split; apply Hlt; set_solver.
Qed.

(** ** The role indices *)

(** C1: in every state reached from a newly constructed object by any
    sequence of calls ([getNextFrame] and [onSwap] among them), the render,
    swap and present indices are a permutation of 0, 1, 2 and pairwise
    distinct. *)
Theorem roles_always_permutation b w0 w :
  initial b w0 → reaches b w0 w →
  roles (self w) ≡ₚ [0; 1; 2]
  ∧ frame_render_id_ (self w) ≠ frame_swap_id_ (self w)
  ∧ frame_swap_id_ (self w) ≠ frame_present_id_ (self w)
  ∧ frame_render_id_ (self w) ≠ frame_present_id_ (self w).
Proof.
  intros Hi Hr.
  assert (roles_ok (self w)) as H by eauto using reaches_roles_ok, initial_roles_ok.
  split; [exact H | by apply roles_ok_distinct].
Qed.

Lemma roles_always_permutation_witness :
  let w0 := boot SDL [# 0; 0; 0] [# 0; 0; 0] (GL.blank 4096) in
  let w := (run SDL [OnSwap; GetNextFrame; OnSwap] w0).2 in
  roles (self w) ≡ₚ [0; 1; 2]
  ∧ frame_render_id_ (self w) ≠ frame_swap_id_ (self w)
  ∧ frame_swap_id_ (self w) ≠ frame_present_id_ (self w)
  ∧ frame_render_id_ (self w) ≠ frame_present_id_ (self w).
Proof.
  intros w0 w. apply (roles_always_permutation SDL w0 w).
  - exists [# 0; 0; 0], [# 0; 0; 0], (GL.blank 4096). reflexivity.
  - exists [OnSwap; GetNextFrame; OnSwap], [Done; Handle 0; Done].
    vm_compute. reflexivity.
Defined.

(** *** The two exchanges, as equations *)

Lemma getNextFrame_eq w :
  getNextFrame w =
  let fc := if frame_acquired_ (self w)
            then set_frame_acquired false (swap_present_swap (self w))
            else self w in
  match vec_to_list (textures_ fc) !! N.to_nat (frame_present_id_ fc) with
  | Some t => (Returns t, World fc (gl w) (cerr w))
  | None => (Stops OutOfRange, World fc (gl w) (cerr w))
  end.
Proof.
  destruct w as [fc g l]. unfold getNextFrame. run_M.
  destruct (frame_acquired_ fc); cbn; by destruct (_ !! _).
Qed.

Lemma onSwap_eq b w :
  onSwap b w =
  let fc := swap_render_swap (self w) in
  match vec_to_list (fbos_ fc) !! N.to_nat (frame_render_id_ fc) with
  | Some fbo =>
    when (bool_decide (b = GLFW)) (CHECK_GL_ERRORS b)
         (World (set_frame_acquired true fc) (GL.glBindFramebuffer fbo (gl w)) (cerr w))
  | None => (Stops OutOfRange, World fc (gl w) (cerr w))
  end.
Proof.
  destruct w as [fc g l]. unfold onSwap. run_M.
  by destruct (_ !! _).
Qed.

(** [std::array::at] succeeds on the three slots. *)
Lemma at_slot (a : vec GLuint 3) i :
  i < 3 → ∃ x, vec_to_list a !! N.to_nat i = Some x.
Proof.
  intros Hi. inv_vec a; intros x0 x1 x2.
  destruct (N.to_nat i) as [|[|[|n]]] eqn:E; cbn; eauto. lia.
Qed.

(** C9: [getNextFrame] never moves the render index (it exchanges swap and
    present, or nothing), and [onSwap] never moves the present index (it
    exchanges render and swap); this holds in every state and however the
    call ends. *)
Theorem exchanges_on_disjoint_roles b w :
  let acquired := (getNextFrame w).2 in
  let published := (onSwap b w).2 in
  frame_render_id_ (self acquired) = frame_render_id_ (self w)
  ∧ (frame_swap_id_ (self acquired), frame_present_id_ (self acquired))
    = (if frame_acquired_ (self w)
       then (frame_present_id_ (self w), frame_swap_id_ (self w))
       else (frame_swap_id_ (self w), frame_present_id_ (self w)))
  ∧ frame_present_id_ (self published) = frame_present_id_ (self w)
  ∧ (frame_render_id_ (self published), frame_swap_id_ (self published))
    = (frame_swap_id_ (self w), frame_render_id_ (self w)).
Proof.
  cbn zeta. split; [apply (getNextFrame_render w)|].
  split.
  { rewrite getNextFrame_eq. cbn zeta.
    destruct (frame_acquired_ (self w)); by destruct (_ !! _). }
  split; [apply (onSwap_present b w)|].
  pose proof (keeps_CHECK_GL_ERRORS (same roles) b) as Hc.
  rewrite onSwap_eq. cbn zeta. destruct (_ !! _) as [fbo|]; [|done].
  destruct b; [rewrite bool_decide_eq_true_2 by done
             | by rewrite bool_decide_eq_false_2 by done].
  unfold when.
  match goal with |- context [CHECK_GL_ERRORS GLFW ?w1] =>
    specialize (Hc w1); unfold on_self, same, roles in Hc; cbn in Hc
  end.
  by injection Hc as -> -> _.
Qed.

Lemma reachable_run b w cs rs w' :
  reachable b w → run b cs w = (Returns rs, w') → reachable b w'.
Proof.
  intros (w0 & Hi & cs0 & rs0 & H0) H. exists w0. split; [done|].
  exists (cs0 ++ cs), (rs0 ++ rs). by eapply run_app.
Qed.

Lemma step_present b c :
  c ≠ GetNextFrame → keeps (on_self (same frame_present_id_)) (step b c).
Proof.
  intros Hc. destruct c; [done|..];
    unfold step, onSetup, onCleanup, onUpdateOutput, onSwap, engine_draw;
    keeps_self; reflexivity.
Qed.

(** C2: in every reachable state [getNextFrame] returns, the handle it
    returns is the texture of the present slot, and that slot is not the
    render slot: neither at that moment, nor after any further calls of the
    decoder side, up to the next [getNextFrame]. *)
Theorem acquired_slot_is_not_render b w :
  reachable b w →
  ∃ t w',
    getNextFrame w = (Returns t, w')
    ∧ vec_to_list (textures_ (self w')) !! N.to_nat (frame_present_id_ (self w')) = Some t
    ∧ frame_present_id_ (self w') ≠ frame_render_id_ (self w')
    ∧ ∀ cs rs w'',
        GetNextFrame ∉ cs → run b cs w' = (Returns rs, w'') →
        frame_render_id_ (self w'') ≠ frame_present_id_ (self w').
Proof.
  intros Hw.
  assert (∃ t w', getNextFrame w = (Returns t, w')) as (t & w' & Hget).
  { pose proof (step_roles_ok b GetNextFrame w) as Hok.
    unfold on_self, stable, step in Hok. rewrite bind_unfold in Hok.
    specialize (reachable_roles_ok b w Hw) as Hw0.
    rewrite getNextFrame_eq in *. cbn zeta in *.
    set (fc := if frame_acquired_ (self w) then _ else _) in *.
    destruct (at_slot (textures_ fc) (frame_present_id_ fc)) as [t Ht].
    { destruct (_ !! _); cbn in Hok; by apply roles_ok_lt, Hok. }
    rewrite Ht. eauto. }
  assert (reachable b w') as Hw'.
  { apply (reachable_run b w [GetNextFrame] [Handle t]); [done|].
    cbn [run step]. rewrite !bind_unfold, Hget. reflexivity. }
  exists t, w'. split; [done|].
  split.
  { rewrite getNextFrame_eq in Hget. cbn zeta in Hget.
    destruct (_ !! _) eqn:E; inversion Hget; subst; cbn. exact E. }
  split.
  { pose proof (roles_ok_distinct _ (reachable_roles_ok _ _ Hw')) as (_ & _ & Hd).
    congruence. }
  intros cs rs w'' Hcs Hrun.
  assert (∀ c, c ∈ cs → keeps (on_self (same frame_present_id_)) (step b c)) as Hall.
  { intros c Hc. apply step_present. by intros ->. }
  pose proof (keeps_run (on_self (same frame_present_id_)) b cs Hall w') as Hp.
  rewrite Hrun in Hp. unfold on_self, same in Hp. cbn in Hp. rewrite <- Hp.
  pose proof (reachable_run _ _ _ _ _ Hw' Hrun) as Hw''.
  by pose proof (roles_ok_distinct _ (reachable_roles_ok _ _ Hw'')) as (_ & _ & Hd).
Qed.

Lemma acquired_slot_is_not_render_witness :
  let w := (run GLFW [OnSwap; GetNextFrame; OnSwap]
              (boot GLFW [# 7; 8; 9] [# 4; 5; 6] (GL.blank 4096))).2 in
  ∃ t w',
    getNextFrame w = (Returns t, w')
    ∧ vec_to_list (textures_ (self w')) !! N.to_nat (frame_present_id_ (self w')) = Some t
    ∧ frame_present_id_ (self w') ≠ frame_render_id_ (self w')
    ∧ ∀ cs rs w'',
        GetNextFrame ∉ cs → run GLFW cs w' = (Returns rs, w'') →
        frame_render_id_ (self w'') ≠ frame_present_id_ (self w').
Proof.
  intros w. apply (acquired_slot_is_not_render GLFW w).
  exists (boot GLFW [# 7; 8; 9] [# 4; 5; 6] (GL.blank 4096)). split.
  - exists [# 7; 8; 9], [# 4; 5; 6], (GL.blank 4096). reflexivity.
  - exists [OnSwap; GetNextFrame; OnSwap], [Done; Handle 4; Done].
    vm_compute. reflexivity.
Defined.

#[global] Instance stays_idle_preorder : PreOrder stays_idle.
Proof.
  split; [by intros fc|].
  intros a b c H1 H2 Ha. destruct (H1 Ha) as (Hb & <-). by apply H2.
Qed.

Lemma step_stays_idle b c :
  c ≠ OnSwap → keeps (on_self stays_idle) (step b c).
Proof.
  intros H1. destruct c; [| | | |done|].
  - intros w. unfold step. rewrite bind_unfold, getNextFrame_eq. cbn zeta.
    unfold on_self, stays_idle. intros Hw. rewrite Hw.
    by destruct (_ !! _).
  - unfold step, onSetup. keeps_self. by intros ?.
  - unfold step, onCleanup. keeps_self.
  - unfold step, onUpdateOutput. keeps_self; by intros ?.
  - unfold step, engine_draw. keeps_self.
Qed.

Lemma step_textures b c :
  (∀ cfg out, c ≠ OnUpdateOutput cfg out) →
  keeps (on_self (same textures_)) (step b c).
Proof.
  intros H. destruct c; [| | |by destruct (H cfg out)| |];
    unfold step, getNextFrame, onSetup, onCleanup, onSwap, engine_draw;
    keeps_self; reflexivity.
Qed.

Lemma run_stays_idle b cs w rs w' :
  OnSwap ∉ cs → run b cs w = (Returns rs, w') →
  frame_acquired_ (self w) = false →
  frame_acquired_ (self w') = false ∧ roles (self w') = roles (self w).
Proof.
  intros Hswap Hrun.
  assert (∀ c, c ∈ cs → keeps (on_self stays_idle) (step b c)) as Hall.
  { intros c Hc. apply step_stays_idle. by intros ->. }
  pose proof (keeps_run (on_self stays_idle) b cs Hall w) as Hk.
  by rewrite Hrun in Hk.
Qed.

Lemma run_textures b cs w rs w' :
  (∀ cfg out, OnUpdateOutput cfg out ∉ cs) → run b cs w = (Returns rs, w') →
  textures_ (self w') = textures_ (self w).
Proof.
  intros Hupd Hrun.
  assert (∀ c, c ∈ cs → keeps (on_self (same textures_)) (step b c)) as Hall.
  { intros c Hc. apply step_textures. intros cfg out ->. by apply (Hupd cfg out). }
  pose proof (keeps_run (on_self (same textures_)) b cs Hall w) as Hk.
  by rewrite Hrun in Hk.
Qed.

(** C6: whatever the state, a second [getNextFrame] with no [onSwap] in
    between (and no reallocation of the textures) ends as the first one
    did, with the same handle: it finds the flag false and leaves the
    object as it is. *)
Theorem getNextFrame_twice b w cs r1 w1 rs w2 :
  OnSwap ∉ cs → (∀ cfg out, OnUpdateOutput cfg out ∉ cs) →
  getNextFrame w = (r1, w1) → run b cs w1 = (Returns rs, w2) →
  frame_acquired_ (self w2) = false ∧ getNextFrame w2 = (r1, w2).
Proof.
  intros Hswap Hupd H1 Hrun.
  assert (frame_acquired_ (self w1) = false
          ∧ match vec_to_list (textures_ (self w1)) !! N.to_nat (frame_present_id_ (self w1)) with
            | Some t => Returns t
            | None => Stops OutOfRange
            end = r1) as [Hf Hr].
  { rewrite getNextFrame_eq in H1. cbn zeta in H1.
    destruct (frame_acquired_ (self w)) eqn:Ef;
      destruct (_ !! _) eqn:E; inversion H1; subst; cbn in *; by rewrite ?Ef, ?E. }
  destruct (run_stays_idle _ _ _ _ _ Hswap Hrun Hf) as [Hf2 [= _ _ Hp]].
  pose proof (run_textures _ _ _ _ _ Hupd Hrun) as Ht.
  split; [done|].
  rewrite getNextFrame_eq. cbn zeta. rewrite Hf2, Ht, Hp. subst r1.
  destruct w2; by destruct (_ !! _).
Qed.

Lemma getNextFrame_twice_witness :
  let w := (run SDL [OnUpdateOutput (RenderCfg 640 480)
                       (OutputCfg 0 false libvlc_video_colorspace_BT601
                          libvlc_video_primaries_BT601_525
                          libvlc_video_transfer_func_LINEAR
                          libvlc_video_orient_top_left);
                     EngineDraw 1; OnSwap]
              (boot SDL [# 0; 0; 0] [# 0; 0; 0] (GL.blank 4096))).2 in
  let w1 := (getNextFrame w).2 in
  let w2 := (run SDL [EngineDraw 2; OnSetup; GetNextFrame] w1).2 in
  frame_acquired_ (self w2) = false ∧ getNextFrame w2 = (Returns 1, w2).
Proof.
  intros w w1 w2.
  apply (getNextFrame_twice SDL w [EngineDraw 2; OnSetup; GetNextFrame]
           (Returns 1) w1 [Done; Accepted true; Handle 1] w2).
  - by apply (bool_decide_unpack _).
  - intros cfg out H.
    repeat (apply elem_of_cons in H as [H|H]; [discriminate|]).
    by apply elem_of_nil in H.
  - vm_compute. reflexivity.
  - vm_compute. reflexivity.
Defined.

(** ** Releasing the surfaces *)

Lemma CHECK_GL_ERRORS_resources b w :
  self (CHECK_GL_ERRORS b w).2 = self w
  ∧ GL.resources (gl (CHECK_GL_ERRORS b w).2) = GL.resources (gl w).
Proof.
  destruct w as [fc g l]. unfold CHECK_GL_ERRORS. run_M.
  destruct (decide _); [done|]. by destruct b.
Qed.

Lemma onCleanup_eq b w :
  onCleanup b w =
  when (bool_decide (b = GLFW)) (CHECK_GL_ERRORS b)
       (World (self w)
          (if bool_decide (0 < frame_width_ (self w))
              && bool_decide (0 < frame_height_ (self w))
           then GL.glDeleteFramebuffers (fbos_ (self w))
                  (GL.glDeleteTextures (textures_ (self w)) (gl w))
           else gl w)
          (cerr w)).
Proof.
  destruct w as [fc g l]. unfold onCleanup. run_M.
  by destruct (_ && _).
Qed.

Lemma delete_texture_textures g t :
  GL.textures (GL.delete_texture g t)
  = if decide (t = 0) then GL.textures g else delete t (GL.textures g).
Proof.
  unfold GL.delete_texture. destruct (decide (t = 0)); [done|].
  destruct (GL.textures g !! t) eqn:E.
  - cbn. destruct (decide (GL.texture_binding g = t)); by destruct (decide _).
  - symmetry. by apply delete_id.
Qed.

Lemma delete_texture_lookup g t k :
  GL.textures g !! k = None → GL.textures (GL.delete_texture g t) !! k = None.
Proof.
  intros Hk. rewrite delete_texture_textures. case_decide; [done|].
  destruct (decide (t = k)) as [->|]; [apply lookup_delete_eq|].
  by rewrite lookup_delete_ne.
Qed.

Lemma delete_texture_gone g t :
  t ≠ 0 → GL.textures (GL.delete_texture g t) !! t = None.
Proof.
  intros Ht. rewrite delete_texture_textures. case_decide; [done|].
  apply lookup_delete_eq.
Qed.

Lemma glDeleteTextures_gone {n} (ts : vec GLuint n) g t :
  t ∈ vec_to_list ts → t ≠ 0 → GL.textures (GL.glDeleteTextures ts g) !! t = None.
Proof.
  unfold GL.glDeleteTextures. intros Hin Ht.
  revert g. induction (vec_to_list ts) as [|x l IH]; intros g; [by apply elem_of_nil in Hin|].
  cbn [foldl]. destruct (decide (t ∈ l)) as [Hl|Hl]; [by apply IH|].
  apply elem_of_cons in Hin as [->|]; [|done].
  assert (∀ g', GL.textures g' !! x = None → GL.textures (foldl GL.delete_texture g' l) !! x = None) as Hkeep.
  { clear. induction l as [|y l IH]; intros g' Hg'; [done|].
    cbn [foldl]. by apply IH, delete_texture_lookup. }
  by apply Hkeep, delete_texture_gone.
Qed.

Lemma delete_framebuffer_framebuffers g f :
  GL.framebuffers (GL.delete_framebuffer g f)
  = if decide (f = 0) then GL.framebuffers g else delete f (GL.framebuffers g).
Proof.
  unfold GL.delete_framebuffer. destruct (decide (f = 0)); [done|].
  destruct (GL.framebuffers g !! f) eqn:E.
  - cbn. by destruct (decide _).
  - symmetry. by apply delete_id.
Qed.

Lemma delete_framebuffer_lookup g f k :
  GL.framebuffers g !! k = None → GL.framebuffers (GL.delete_framebuffer g f) !! k = None.
Proof.
  intros Hk. rewrite delete_framebuffer_framebuffers. case_decide; [done|].
  destruct (decide (f = k)) as [->|]; [apply lookup_delete_eq|].
  by rewrite lookup_delete_ne.
Qed.

Lemma delete_framebuffer_gone g f :
  f ≠ 0 → GL.framebuffers (GL.delete_framebuffer g f) !! f = None.
Proof.
  intros Hf. rewrite delete_framebuffer_framebuffers. case_decide; [done|].
  apply lookup_delete_eq.
Qed.

Lemma glDeleteFramebuffers_gone {n} (fs : vec GLuint n) g f :
  f ∈ vec_to_list fs → f ≠ 0 →
  GL.framebuffers (GL.glDeleteFramebuffers fs g) !! f = None.
Proof.
  unfold GL.glDeleteFramebuffers. intros Hin Hf.
  revert g. induction (vec_to_list fs) as [|x l IH]; intros g; [by apply elem_of_nil in Hin|].
  cbn [foldl]. destruct (decide (f ∈ l)) as [Hl|Hl]; [by apply IH|].
  apply elem_of_cons in Hin as [->|]; [|done].
  assert (∀ g', GL.framebuffers g' !! x = None →
                GL.framebuffers (foldl GL.delete_framebuffer g' l) !! x = None) as Hkeep.
  { clear. induction l as [|y l IH]; intros g' Hg'; [done|].
    cbn [foldl]. by apply IH, delete_framebuffer_lookup. }
  by apply Hkeep, delete_framebuffer_gone.
Qed.

Lemma glDeleteFramebuffers_textures {n} (fs : vec GLuint n) g :
  GL.textures (GL.glDeleteFramebuffers fs g) = GL.textures g.
Proof.
  unfold GL.glDeleteFramebuffers. revert g.
  induction (vec_to_list fs) as [|x l IH]; intros g; [done|].
  cbn [foldl]. rewrite IH. unfold GL.delete_framebuffer.
  destruct (decide _); [done|]. destruct (_ !! _); [|done]. cbn.
  by case_decide.
Qed.

(** C10: [onCleanup] deletes the three textures and the three framebuffers
    exactly when both recorded dimensions are positive, and then their names
    are gone from the context; otherwise the objects and bindings of the
    context are left as they are.  In particular nothing is deleted on a
    newly constructed object, nor after [onSetup] has reset the dimensions. *)
Theorem onCleanup_deletes_iff_sized b w :
  let w' := (onCleanup b w).2 in
  let sized := bool_decide (0 < frame_width_ (self w))
               && bool_decide (0 < frame_height_ (self w)) in
  let deleted := GL.glDeleteFramebuffers (fbos_ (self w))
                   (GL.glDeleteTextures (textures_ (self w)) (gl w)) in
  self w' = self w
  ∧ GL.resources (gl w') = GL.resources (if sized then deleted else gl w)
  ∧ (b = SDL → gl w' = if sized then deleted else gl w)
  ∧ (sized = true → ∀ n, n ≠ 0 →
       (n ∈ vec_to_list (textures_ (self w)) → GL.textures (gl w') !! n = None)
       ∧ (n ∈ vec_to_list (fbos_ (self w)) → GL.framebuffers (gl w') !! n = None))
  ∧ (∀ junk_fbos junk_textures g,
       GL.resources (gl (onCleanup b (boot b junk_fbos junk_textures g)).2)
       = GL.resources g)
  ∧ GL.resources (gl ((onSetup ;; onCleanup b) w).2) = GL.resources (gl w).
Proof.
  assert (∀ w, self (onCleanup b w).2 = self w
               ∧ GL.resources (gl (onCleanup b w).2)
                 = GL.resources
                     (if bool_decide (0 < frame_width_ (self w))
                         && bool_decide (0 < frame_height_ (self w))
                      then GL.glDeleteFramebuffers (fbos_ (self w))
                             (GL.glDeleteTextures (textures_ (self w)) (gl w))
                      else gl w)) as Hres.
  { intros w1. rewrite onCleanup_eq.
    destruct b; [rewrite bool_decide_eq_true_2 by done
                | by rewrite bool_decide_eq_false_2 by done].
    unfold when.
    match goal with |- context [CHECK_GL_ERRORS GLFW ?x] =>
      exact (CHECK_GL_ERRORS_resources GLFW x)
    end. }
  cbn zeta. destruct (Hres w) as [Hself Hgl].
  split; [done|]. split; [done|]. split.
  { intros ->. rewrite onCleanup_eq. by rewrite bool_decide_eq_false_2 by done. }
  split.
  { intros Hsized n Hn. rewrite Hsized in Hgl.
    injection Hgl as Ht Hf _ _. rewrite Ht, Hf. split; intros Hin.
    - rewrite glDeleteFramebuffers_textures. by apply glDeleteTextures_gone.
    - by apply glDeleteFramebuffers_gone. }
  split.
  { intros jf jt g. destruct (Hres (boot b jf jt g)) as [_ ->]. by destruct b. }
  rewrite bind_unfold.
  change (onSetup w) with (Returns true, World (set_frame_size 0 0 (self w)) (gl w) (cerr w)).
  cbv iota beta.
  by destruct (Hres (World (set_frame_size 0 0 (self w)) (gl w) (cerr w))) as [_ ->].
Qed.

Lemma onCleanup_deletes_iff_sized_witness :
  let w := (run GLFW [OnUpdateOutput (RenderCfg 640 480)
                        (OutputCfg 0 false libvlc_video_colorspace_BT601
                           libvlc_video_primaries_BT601_525
                           libvlc_video_transfer_func_LINEAR
                           libvlc_video_orient_top_left)]
              (boot GLFW [# 7; 8; 9] [# 4; 5; 6] (GL.blank 4096))).2 in
  GL.textures (gl (onCleanup GLFW w).2) !! 2 = None
  ∧ GL.framebuffers (gl (onCleanup GLFW w).2) !! 3 = None.
Proof.
  intros w.
  destruct (onCleanup_deletes_iff_sized GLFW w) as (_ & _ & _ & H & _).
  assert (bool_decide (0 < frame_width_ (self w))
          && bool_decide (0 < frame_height_ (self w)) = true) as Hsized
    by (vm_compute; reflexivity).
  assert ((2:N) ≠ 0) as H2 by discriminate.
  assert ((3:N) ≠ 0) as H3 by discriminate.
  split.
  - apply (H Hsized 2 H2). apply (bool_decide_unpack _). vm_compute. reflexivity.
  - apply (H Hsized 3 H3). apply (bool_decide_unpack _). vm_compute. reflexivity.
Defined.

(** ** The output descriptor *)

Lemma onUpdateOutput_descriptor b cfg out w r w' :
  onUpdateOutput b cfg out w = (Returns r, w') →
  r = (true,
       OutputCfg GL.GL_RGBA true libvlc_video_colorspace_BT709
         libvlc_video_primaries_BT709 libvlc_video_transfer_func_SRGB
         match b with
         | GLFW => libvlc_video_orient_top_left
         | SDL => orientation out
         end).
Proof.
  unfold onUpdateOutput. intros H.
  repeat match type of H with
         | (_ ≫= _) _ = _ => apply bind_inv in H as (? & ? & _ & H)
         end.
  inversion H. by destruct b.
Qed.

(** ** Allocation *)

Lemma size_limit_eq g g' :
  GL.max_texture_size g = GL.max_texture_size g' → GL.size_limit g = GL.size_limit g'.
Proof. unfold GL.size_limit. by intros ->. Qed.

Lemma attach_new_objects W H tex fbo g :
  tex ≠ 0 → fbo ≠ 0 →
  GL.textures g !! tex = None → GL.framebuffers g !! fbo = None →
  GL.objects (GL.attach_new W H tex fbo g)
  = GL.State
      (N.max (GL.next_texture g) (N.succ tex))
      (N.max (GL.next_framebuffer g) (N.succ fbo))
      (<[tex := if decide (W ≤ GL.size_limit g ∧ H ≤ GL.size_limit g)
                then GL.Texture W H None else GL.Texture 0 0 None]> (GL.textures g))
      (<[fbo := Some tex]> (GL.framebuffers g))
      tex fbo (GL.max_texture_size g) GL.GL_NO_ERROR.
Proof.
  intros Htex Hfbo Ht Hf. destruct g as [nt nf ts fs bt bf mx e]. cbn in *.
  unfold GL.attach_new, GL.glBindTexture. cbn.
  rewrite decide_False by done. rewrite Ht. cbn.
  unfold GL.glTexImage2D. cbn.
  destruct (decide (_ ∧ _)); cbn;
    unfold GL.glBindFramebuffer; cbn; rewrite decide_False by done; rewrite Hf; cbn;
    unfold GL.glFramebufferTexture2D; cbn; rewrite !decide_False by done; cbn;
    unfold GL.objects; cbn; by rewrite ?insert_insert_eq.
Qed.

Lemma CHECK_GL_ERRORS_returns b w u w' :
  CHECK_GL_ERRORS b w = (Returns u, w') →
  self w' = self w ∧ GL.objects (gl w') = GL.objects (gl w)
  ∧ (b = SDL → cerr w' = cerr w)
  ∧ ∃ tail, cerr w' = cerr w ++ tail ∧ ∀ m, m ∈ tail → ∃ e, m = GLError e.
Proof.
  destruct w as [fc g l]. unfold CHECK_GL_ERRORS. run_M.
  destruct (decide _).
  { intros [= _ <-]. repeat split; try done.
    exists []. cbn. rewrite app_nil_r. split; [done|]. by intros m ?%elem_of_nil. }
  destruct b; [|done]. intros [= _ <-]. repeat split; try done.
  eexists. split; [done|]. intros m ->%list_elem_of_singleton. eauto.
Qed.

Lemma allocate_slot_returns b W H tex fbo w u w' :
  allocate_slot b W H (tex, fbo) w = (Returns u, w') →
  self w' = self w ∧ cerr w' = cerr w
  ∧ GL.objects (gl w') = GL.objects (GL.attach_new W H tex fbo (gl w)).
Proof.
  destruct w as [fc g l]. unfold allocate_slot. intros Hrun.
  do 4 bind_prim Hrun. cbn in Hrun.
  destruct b.
  - rewrite bool_decide_eq_false_2 in Hrun by done.
    cbv [when mret M_ret] in Hrun. by simplify_eq.
  - rewrite bool_decide_eq_true_2 in Hrun by done. unfold when in Hrun.
    apply CHECK_GL_ERRORS_returns in Hrun as (-> & -> & -> & _); done.
Qed.

Lemma objects_fields g s :
  GL.objects g = s →
  GL.next_texture g = GL.next_texture s
  ∧ GL.next_framebuffer g = GL.next_framebuffer s
  ∧ GL.textures g = GL.textures s
  ∧ GL.framebuffers g = GL.framebuffers s
  ∧ GL.texture_binding g = GL.texture_binding s
  ∧ GL.framebuffer_binding g = GL.framebuffer_binding s
  ∧ GL.max_texture_size g = GL.max_texture_size s.
Proof. by intros <-. Qed.

Lemma for_each_three {A} (body : A → M unit) x y z w u w' :
  for_each body [x; y; z] w = (Returns u, w') →
  ∃ u1 w1 u2 w2,
    body x w = (Returns u1, w1) ∧ body y w1 = (Returns u2, w2)
    ∧ body z w2 = (Returns u, w').
Proof.
  cbn [for_each]. intros Hrun.
  apply bind_inv in Hrun as (u1 & w1 & H1 & Hrun).
  apply bind_inv in Hrun as (u2 & w2 & H2 & Hrun).
  apply bind_inv in Hrun as (u3 & w3 & H3 & [= <- <-]).
  destruct u3. eauto 10.
Qed.

Lemma objects_glBindTexture t g :
  GL.objects (GL.glBindTexture t g) = GL.glBindTexture t (GL.objects g).
Proof.
  destruct g. unfold GL.glBindTexture, GL.objects. cbn.
  destruct (decide _); [done|]. by destruct (_ !! _).
Qed.

Lemma glBindTexture_0 g : GL.glBindTexture 0 g = GL.set_texture_binding 0 g.
Proof. reflexivity. Qed.

Lemma objects_glBindFramebuffer f g :
  GL.objects (GL.glBindFramebuffer f g) = GL.glBindFramebuffer f (GL.objects g).
Proof.
  destruct g. unfold GL.glBindFramebuffer, GL.objects. cbn.
  destruct (decide _); [done|]. by destruct (_ !! _).
Qed.

Lemma framebuffer_complete_objects g :
  GL.framebuffer_complete (GL.objects g) = GL.framebuffer_complete g.
Proof. by destruct g. Qed.

Lemma when_print_returns c m w u w' :
  when c (print m) w = (Returns u, w') →
  w' = World (self w) (gl w) (cerr w ++ if c then [m] else []).
Proof.
  destruct w as [fc g l]. destruct c; cbv [when print mret M_ret]; intros [= _ <-]; cbn.
  - done.
  - by rewrite app_nil_r.
Qed.

Lemma when_CHECK_returns (c : bool) b w u w' :
  when c (CHECK_GL_ERRORS b) w = (Returns u, w') →
  self w' = self w ∧ GL.objects (gl w') = GL.objects (gl w)
  ∧ ∃ tail, cerr w' = cerr w ++ tail ∧ ∀ m, m ∈ tail → ∃ e, m = GLError e.
Proof.
  destruct c; unfold when.
  - intros (? & ? & _ & ?)%CHECK_GL_ERRORS_returns. done.
  - intros [= _ <-]. repeat split; try done.
    exists []. rewrite app_nil_r. split; [done|]. by intros m ?%elem_of_nil.
Qed.

(** What a returning [onUpdateOutput] has done: the requested size is one
    the context can allocate and render to, the arrays hold six new names,
    each new texture has storage of that size and is attached to its
    framebuffer, the framebuffer of the render slot is bound; everything
    else in the object and all older objects of the context are as before. *)
Lemma onUpdateOutput_returns b cfg out w r w' :
  GL.wf (gl w) → onUpdateOutput b cfg out w = (Returns r, w') →
  let t := GL.next_texture (gl w) in
  let f := GL.next_framebuffer (gl w) in
  let X := GL.Texture (width cfg) (height cfg) None in
  (width cfg ≤ GL.size_limit (gl w) ∧ height cfg ≤ GL.size_limit (gl w)
   ∧ 0 < width cfg ∧ 0 < height cfg)
  ∧ self w' = Build_FrameCapture (GL.names 3 f) (GL.names 3 t)
                (frame_render_id_ (self w)) (frame_swap_id_ (self w))
                (frame_present_id_ (self w)) (width cfg) (height cfg)
                (frame_acquired_ (self w))
  ∧ ∃ fbo,
      vec_to_list (GL.names 3 f) !! N.to_nat (frame_render_id_ (self w)) = Some fbo
      ∧ GL.objects (gl w')
        = GL.State (t + 3) (f + 3)
            (<[N.succ (N.succ t) := X]> (<[N.succ t := X]> (<[t := X]> (GL.textures (gl w)))))
            (<[N.succ (N.succ f) := Some (N.succ (N.succ t))]>
               (<[N.succ f := Some (N.succ t)]> (<[f := Some t]> (GL.framebuffers (gl w)))))
            0 fbo (GL.max_texture_size (gl w)) GL.GL_NO_ERROR
  ∧ ∃ tail,
      cerr w' = cerr w
                ++ (if bool_decide (frame_width_ (self w) ≠ width cfg)
                       || bool_decide (frame_height_ (self w) ≠ height cfg)
                    then [SizeChanged (width cfg) (height cfg)] else [])
                ++ tail
      ∧ ∀ m, m ∈ tail → ∃ e, m = GLError e.
Proof.
  destruct w as [fc g l]. destruct cfg as [W H]. cbn [gl self cerr width height].
  intros (Hnt & Hnf & _ & _ & Hts & Hfs) Hrun.
  unfold onUpdateOutput in Hrun.
  bind_prim Hrun.
  apply bind_inv in Hrun as (? & wa & Hmsg & Hrun).
  apply when_print_returns in Hmsg as ->.
  do 6 bind_prim Hrun.
  cbn [self gl cerr fst snd GL.glGenTextures GL.glGenFramebuffers GL.names
       set_frame_size set_fbos_ set_textures_ frame_width_ frame_height_
       textures_ fbos_ frame_render_id_ width height vec_to_list zip zip_with] in Hrun.
  apply bind_inv in Hrun as (? & w3 & Hloop & Hrun).
  apply for_each_three in Hloop as (? & w1 & ? & w2 & H1 & H2 & H3).
  apply allocate_slot_returns in H1 as (Hs1 & Hc1 & Ho1).
  apply allocate_slot_returns in H2 as (Hs2 & Hc2 & Ho2).
  apply allocate_slot_returns in H3 as (Hs3 & Hc3 & Ho3).
  set (t := GL.next_texture g) in *. set (f := GL.next_framebuffer g) in *.
  rewrite attach_new_objects in Ho1; cbn; [|lia|lia|apply Hts; lia|apply Hfs; lia].
  cbn in Ho1.
  destruct (objects_fields _ _ Ho1) as (Ea1 & Eb1 & Ec1 & Ed1 & _ & _ & Em1).
  cbn in Ea1, Eb1, Ec1, Ed1, Em1.
  rewrite attach_new_objects in Ho2;
    [|lia|lia
     |rewrite Ec1, lookup_insert_ne by lia; apply Hts; lia
     |rewrite Ed1, lookup_insert_ne by lia; apply Hfs; lia].
  rewrite Ea1, Eb1, Ec1, Ed1, Em1, (size_limit_eq _ _ Em1) in Ho2.
  destruct (objects_fields _ _ Ho2) as (Ea2 & Eb2 & Ec2 & Ed2 & _ & _ & Em2).
  cbn in Ea2, Eb2, Ec2, Ed2, Em2.
  rewrite attach_new_objects in Ho3;
    [|lia|lia
     |rewrite Ec2, !lookup_insert_ne by lia; apply Hts; lia
     |rewrite Ed2, !lookup_insert_ne by lia; apply Hfs; lia].
  rewrite Ea2, Eb2, Ec2, Ed2, Em2, (size_limit_eq _ _ Em2) in Ho3.
  clear Ea1 Eb1 Ec1 Ed1 Em1 Ea2 Eb2 Ec2 Ed2 Em2 Ho1 Ho2.
  rewrite Hs2, Hs1 in Hs3. rewrite Hc2, Hc1 in Hc3. cbn in Hs3, Hc3.
  clear Hs1 Hs2 Hc1 Hc2.
  do 2 bind_prim Hrun.
  apply bind_inv in Hrun as (? & w4 & Hcomplete & Hrun).
  destruct (GL.framebuffer_complete _) eqn:Ecomplete in Hcomplete;
    [|discriminate Hcomplete].
  cbv [negb when mret M_ret] in Hcomplete. injection Hcomplete as _ <-.
  apply bind_inv in Hrun as (? & w5 & Hchk & Hrun).
  apply when_CHECK_returns in Hchk as (Hs5 & Ho5 & tail5 & Hc5 & Htail5).
  apply bind_inv in Hrun as (fbo & w6 & Hat & Hrun).
  unfold at_ in Hat. destruct (_ !! _) as [fbo'|] eqn:Efbo in Hat; [|discriminate Hat].
  cbv [mret M_ret] in Hat. injection Hat as -> <-.
  bind_prim Hrun.
  apply bind_inv in Hrun as (? & w7 & Hchk & Hrun).
  apply when_CHECK_returns in Hchk as (Hs7 & Ho7 & tail7 & Hc7 & Htail7).
  cbv [mret M_ret] in Hrun. injection Hrun as _ <-.
  cbn [self gl cerr] in *.
  rewrite <- framebuffer_complete_objects, objects_glBindTexture, Ho3 in Ecomplete.
  rewrite objects_glBindFramebuffer, Ho5, objects_glBindTexture, Ho3 in Ho7.
  clear Ho3 Ho5.
  assert ((W ≤ GL.size_limit g ∧ H ≤ GL.size_limit g) ∧ 0 < W ∧ 0 < H)
    as [Hok Hpos].
  { rewrite glBindTexture_0 in Ecomplete.
    unfold GL.framebuffer_complete, GL.render_target in Ecomplete.
    cbn in Ecomplete. rewrite decide_False in Ecomplete by lia.
    rewrite lookup_insert_eq in Ecomplete. cbn in Ecomplete.
    rewrite lookup_insert_eq in Ecomplete.
    destruct (decide (W ≤ _ ∧ _)) as [Hok|]; cbn in Ecomplete;
      apply bool_decide_eq_true in Ecomplete; [done | lia]. }
  rewrite !decide_True in Ho7 by done.
  split; [tauto|].
  split; [rewrite Hs7, Hs5, Hs3; by destruct fc|].
  exists fbo. split; [done|]. split.
  2:{ exists (tail5 ++ tail7). split.
      - rewrite Hc7, Hc5, Hc3. by rewrite <- !app_assoc.
      - intros m [?|?]%elem_of_app; auto. }
  transitivity (GL.objects (gl w7)); [reflexivity|].
  rewrite Ho7, glBindTexture_0. unfold GL.glBindFramebuffer. cbn.
  assert (fbo ≠ 0 ∧ ∃ a,
            (<[N.succ (N.succ f):=Some (N.succ (N.succ t))]>
               (<[N.succ f:=Some (N.succ t)]>
                  (<[f:=Some t]> (GL.framebuffers g)))) !! fbo = Some a) as [Hfbo [a Ha]].
  { destruct (N.to_nat (frame_render_id_ fc)) as [|[|[|n]]];
      cbn in Efbo; simplify_eq; (split; [lia|]).
    - rewrite !lookup_insert_ne, lookup_insert_eq by lia. eauto.
    - rewrite lookup_insert_ne, lookup_insert_eq by lia. eauto.
    - rewrite lookup_insert_eq. eauto. }
  rewrite decide_False by done. rewrite Ha.
  cbv [GL.set_framebuffer_binding GL.set_texture_binding GL.next_texture
       GL.next_framebuffer GL.textures GL.framebuffers GL.texture_binding
       GL.framebuffer_binding GL.max_texture_size GL.error N.of_nat
       Pos.of_succ_nat Pos.succ].
  f_equal; lia.
Qed.

(** ** The name counters stay ahead of the names in use *)

Lemma wf_glGetError g : GL.wf g → GL.wf (GL.glGetError g).2.
Proof. by destruct g. Qed.

Lemma wf_raise e g : GL.wf g → GL.wf (GL.raise e g).
Proof. by destruct g. Qed.

Lemma wf_glGenTextures n g : GL.wf g → GL.wf (GL.glGenTextures n g).2.
Proof.
  destruct g. unfold GL.wf. cbn. intros (? & ? & ? & ? & Ht & ?).
  repeat split; try done; try lia. intros k Hk. apply Ht. lia.
Qed.

Lemma wf_glGenFramebuffers n g : GL.wf g → GL.wf (GL.glGenFramebuffers n g).2.
Proof.
  destruct g. unfold GL.wf. cbn. intros (? & ? & ? & ? & ? & Hf).
  repeat split; try done; try lia. intros k Hk. apply Hf. lia.
Qed.

Lemma wf_glBindTexture t g : GL.wf g → GL.wf (GL.glBindTexture t g).
Proof.
  destruct g as [nt nf ts fs bt bf mx e]. unfold GL.wf, GL.glBindTexture. cbn.
  intros (? & ? & ? & ? & Ht & ?).
  destruct (decide (t = 0)) as [->|]; [done|].
  destruct (ts !! t) eqn:E; cbn.
  - repeat split; try done.
    destruct (decide (nt ≤ t)) as [Hle|]; [|lia]. by rewrite (Ht _ Hle) in E.
  - repeat split; try done; try lia.
    intros k Hk. rewrite lookup_insert_ne by lia. apply Ht. lia.
Qed.

Lemma wf_glTexImage2D w h g : GL.wf g → GL.wf (GL.glTexImage2D w h g).
Proof.
  unfold GL.glTexImage2D. destruct (decide _); [|apply wf_raise].
  destruct g as [nt nf ts fs bt bf mx e]. unfold GL.wf. cbn.
  intros (? & ? & ? & ? & Ht & ?). repeat split; try done.
  intros k Hk. rewrite lookup_insert_ne by lia. by apply Ht.
Qed.

Lemma wf_glBindFramebuffer f g : GL.wf g → GL.wf (GL.glBindFramebuffer f g).
Proof.
  destruct g as [nt nf ts fs bt bf mx e]. unfold GL.wf, GL.glBindFramebuffer. cbn.
  intros (? & ? & ? & ? & ? & Hf).
  destruct (decide (f = 0)) as [->|]; [done|].
  destruct (fs !! f) eqn:E; cbn.
  - repeat split; try done.
    destruct (decide (nf ≤ f)) as [Hle|]; [|lia]. by rewrite (Hf _ Hle) in E.
  - repeat split; try done; try lia.
    intros k Hk. rewrite lookup_insert_ne by lia. apply Hf. lia.
Qed.

Lemma wf_glFramebufferTexture2D t g : GL.wf g → GL.wf (GL.glFramebufferTexture2D t g).
Proof.
  unfold GL.glFramebufferTexture2D. destruct (decide _); [apply wf_raise|].
  destruct g as [nt nf ts fs bt bf mx e]. unfold GL.wf. cbn.
  intros (? & ? & ? & ? & ? & Hf). repeat split; try done.
  intros k Hk. rewrite lookup_insert_ne by lia. by apply Hf.
Qed.

Lemma wf_delete_texture g t : GL.wf g → GL.wf (GL.delete_texture g t).
Proof.
  unfold GL.delete_texture. destruct (decide (t = 0)); [done|].
  destruct (GL.textures g !! t) eqn:E; [|done].
  destruct g as [nt nf ts fs bt bf mx e]. unfold GL.wf. cbn in *.
  intros (? & ? & ? & ? & Ht & Hf).
  assert (∀ k, nt ≤ k → delete t ts !! k = None) as Hd.
  { intros k Hk. destruct (decide (t = k)) as [->|]; [apply lookup_delete_eq|].
    rewrite lookup_delete_ne by done. by apply Ht. }
  destruct (decide (bt = t)); destruct (decide _); cbn; repeat split; try done.
  all: intros k Hk; rewrite lookup_insert_ne by lia; by apply Hf.
Qed.

Lemma wf_glDeleteTextures {n} (ts : vec N n) g :
  GL.wf g → GL.wf (GL.glDeleteTextures ts g).
Proof.
  unfold GL.glDeleteTextures. revert g.
  induction (vec_to_list ts) as [|t l IH]; intros g Hg; [done|].
  cbn [foldl]. by apply IH, wf_delete_texture.
Qed.

Lemma wf_delete_framebuffer g f : GL.wf g → GL.wf (GL.delete_framebuffer g f).
Proof.
  unfold GL.delete_framebuffer. destruct (decide (f = 0)); [done|].
  destruct (GL.framebuffers g !! f) eqn:E; [|done].
  destruct g as [nt nf ts fs bt bf mx e]. unfold GL.wf. cbn in *.
  intros (? & ? & ? & ? & Ht & Hf).
  assert (∀ k, nf ≤ k → delete f fs !! k = None) as Hd.
  { intros k Hk. destruct (decide (f = k)) as [->|]; [apply lookup_delete_eq|].
    rewrite lookup_delete_ne by done. by apply Hf. }
  destruct (decide (bf = f)); cbn; repeat split; done.
Qed.

Lemma wf_glDeleteFramebuffers {n} (fs : vec N n) g :
  GL.wf g → GL.wf (GL.glDeleteFramebuffers fs g).
Proof.
  unfold GL.glDeleteFramebuffers. revert g.
  induction (vec_to_list fs) as [|f l IH]; intros g Hg; [done|].
  cbn [foldl]. by apply IH, wf_delete_framebuffer.
Qed.

Lemma wf_draw p g : GL.wf g → GL.wf (GL.draw p g).
Proof.
  unfold GL.draw. destruct (GL.render_target g) as [t|]; [|done].
  destruct g as [nt nf ts fs bt bf mx e]. unfold GL.wf. cbn.
  intros (? & ? & ? & ? & Ht & ?). repeat split; try done.
  intros k Hk. rewrite lookup_alter. case_decide; [|by apply Ht].
  subst. by rewrite Ht.
Qed.

Lemma wf_blank limit : GL.wf (GL.blank limit).
Proof. unfold GL.wf. cbn. repeat split; try lia; intros; apply lookup_empty. Qed.

#[global] Instance on_gl_preorder r `{!PreOrder r} : PreOrder (on_gl r).
Proof.
  split; [intros w; unfold on_gl; reflexivity|].
  intros a b c H1 H2. unfold on_gl in *. by etrans.
Qed.

Section keeps_on_gl.
Context (r : relation GL.state) `{!PreOrder r}.

Lemma gl_keeps_update f : keeps (on_gl r) (update f).
Proof. intros w. unfold on_gl. cbn. reflexivity. Qed.

Lemma gl_keeps_print m : keeps (on_gl r) (print m).
Proof. intros w. unfold on_gl. cbn. reflexivity. Qed.

Lemma gl_keeps_gl_do f : (∀ g, r g (f g)) → keeps (on_gl r) (gl_do f).
Proof. intros H w. unfold on_gl. cbn. apply H. Qed.

Lemma gl_keeps_gl_get {A} (f : GL.state → A * GL.state) :
  (∀ g, r g (f g).2) → keeps (on_gl r) (gl_get f).
Proof. intros H w. unfold on_gl. cbn. apply H. Qed.
End keeps_on_gl.

Lemma CHECK_GL_ERRORS_wf b : keeps (on_gl (stable GL.wf)) (CHECK_GL_ERRORS b).
Proof.
  unfold CHECK_GL_ERRORS.
  apply keeps_bind; try apply _.
  - apply gl_keeps_gl_get; try apply _. intros g. exact (wf_glGetError g).
  - intros e. destruct (decide _); [apply keeps_ret, _|].
    destruct b; [apply gl_keeps_print, _ | apply keeps_stops, _].
Qed.

Lemma allocate_slot_wf b W H slot :
  keeps (on_gl (stable GL.wf)) (allocate_slot b W H slot).
Proof.
  destruct slot as [tex fbo]. unfold allocate_slot.
  repeat (apply keeps_bind;
          [apply _ | apply gl_keeps_gl_do; try apply _; intros g; unfold stable
           | intros _]).
  - apply wf_glBindTexture.
  - apply wf_glTexImage2D.
  - apply wf_glBindFramebuffer.
  - apply wf_glFramebufferTexture2D.
  - apply keeps_when; [apply _ | apply CHECK_GL_ERRORS_wf].
Qed.

(** Reduces [keeps (on_gl r) m] to what the OpenGL calls do. *)
Ltac keeps_gl :=
  repeat (first
    [ apply allocate_slot_wf
    | apply CHECK_GL_ERRORS_wf
    | apply keeps_bind
    | apply keeps_ret
    | apply keeps_stops
    | apply keeps_this
    | apply keeps_at
    | apply keeps_gl_read
    | apply keeps_when
    | apply keeps_for_each
    | apply gl_keeps_update
    | apply gl_keeps_print
    | apply gl_keeps_gl_do
    | apply gl_keeps_gl_get ];
    try (solve [apply _]);
    try lazymatch goal with |- ∀ _, _ => intros ? end).

Lemma step_wf b c : keeps (on_gl (stable GL.wf)) (step b c).
Proof.
  destruct c; unfold step, getNextFrame, onSetup, onCleanup, onUpdateOutput,
    onSwap, engine_draw; keeps_gl; unfold stable;
    first [ apply CHECK_GL_ERRORS_wf | apply allocate_slot_wf
          | apply wf_glDeleteTextures | apply wf_glDeleteFramebuffers
          | apply wf_glGenTextures | apply wf_glGenFramebuffers
          | apply wf_glBindTexture | apply wf_glBindFramebuffer
          | apply wf_draw ].
Qed.

Lemma run_wf b cs w rs w' :
  GL.wf (gl w) → run b cs w = (Returns rs, w') → GL.wf (gl w').
Proof.
  intros Hw Hrun.
  pose proof (keeps_run (on_gl (stable GL.wf)) b cs (λ c _, step_wf b c) w) as H.
  rewrite Hrun in H. exact (H Hw).
Qed.

(** ** Allocation, the descriptor and the first frame *)

(** C8, the defect: in [sdl_opengl.cpp] a returning [onUpdateOutput] does
    not set the orientation.  Called with a descriptor whose orientation is
    bottom-right, it returns true and the orientation is still
    bottom-right, not top-left as [glfw_sample.cpp] sets it. *)
Theorem onUpdateOutput_sdl_orientation_unset :
  let out := OutputCfg 0 false libvlc_video_colorspace_BT601
               libvlc_video_primaries_BT601_525 libvlc_video_transfer_func_LINEAR
               libvlc_video_orient_bottom_right in
  let w := boot SDL [# 0; 0; 0] [# 0; 0; 0] (GL.blank 4096) in
  (onUpdateOutput SDL (RenderCfg 640 480) out w).1
  = Returns (true,
             OutputCfg GL.GL_RGBA true libvlc_video_colorspace_BT709
               libvlc_video_primaries_BT709 libvlc_video_transfer_func_SRGB
               libvlc_video_orient_bottom_right)
  ∧ libvlc_video_orient_bottom_right ≠ libvlc_video_orient_top_left
  ∧ (onUpdateOutput GLFW (RenderCfg 640 480) out
       (boot GLFW [# 0; 0; 0] [# 0; 0; 0] (GL.blank 4096))).1
    = Returns (true,
               OutputCfg GL.GL_RGBA true libvlc_video_colorspace_BT709
                 libvlc_video_primaries_BT709 libvlc_video_transfer_func_SRGB
                 libvlc_video_orient_top_left).
Proof. cbn zeta. split; [by vm_compute|]. split; [done | by vm_compute]. Qed.

(** C3, counterexample: in [sdl_opengl.cpp], once [onUpdateOutput] has
    allocated the textures, a [getNextFrame] made before any [onSwap]
    returns texture name 3, not 0. *)
Lemma getNextFrame_after_allocation_nonzero :
  let cs := [OnUpdateOutput (RenderCfg 640 480)
               (OutputCfg 0 false libvlc_video_colorspace_BT601
                  libvlc_video_primaries_BT601_525 libvlc_video_transfer_func_LINEAR
                  libvlc_video_orient_top_left)] in
  let w := (run SDL cs (boot SDL [# 0; 0; 0] [# 0; 0; 0] (GL.blank 4096))).2 in
  (OnSwap ∉ cs)
  ∧ (∃ rs, (run SDL cs (boot SDL [# 0; 0; 0] [# 0; 0; 0] (GL.blank 4096))).1 = Returns rs)
  ∧ (getNextFrame w).1 = Returns 3
  ∧ (getNextFrame w).1 ≠ Returns 0.
Proof.
  cbn zeta. split; [by apply (bool_decide_unpack _)|].
  split; [eexists; vm_compute; reflexivity|].
  split; [by vm_compute|]. by vm_compute.
Qed.

(** C3, as amended: before the first [onSwap], [getNextFrame] returns 0 in
    [sdl_opengl.cpp] as long as [onUpdateOutput] has not run (the array is
    value-initialised); once [onUpdateOutput] has returned, in either
    example, it returns the name of the texture of slot 2, which is not 0;
    in both cases it changes nothing. *)
Theorem getNextFrame_before_first_swap :
  (∀ junk_fbos junk_textures g cs rs w,
     OnSwap ∉ cs → (∀ cfg out, OnUpdateOutput cfg out ∉ cs) →
     run SDL cs (boot SDL junk_fbos junk_textures g) = (Returns rs, w) →
     getNextFrame w = (Returns 0, w))
  ∧ (∀ b junk_fbos junk_textures g cs1 cfg out cs2 rs w,
       GL.wf g → OnSwap ∉ cs1 → OnSwap ∉ cs2 →
       (∀ cfg' out', OnUpdateOutput cfg' out' ∉ cs2) →
       run b (cs1 ++ OnUpdateOutput cfg out :: cs2) (boot b junk_fbos junk_textures g)
       = (Returns rs, w) →
       ∃ t, getNextFrame w = (Returns t, w) ∧ t ≠ 0
            ∧ vec_to_list (textures_ (self w)) !! 2%nat = Some t).
Proof.
  split.
  - intros jf jt g cs rs w Hswap Hupd Hrun.
    destruct (run_stays_idle _ _ _ _ _ Hswap Hrun eq_refl) as [Hf [= _ _ Hp]].
    pose proof (run_textures _ _ _ _ _ Hupd Hrun) as Ht.
    rewrite getNextFrame_eq. cbn zeta. rewrite Hf, Ht, Hp. by destruct w.
  - intros b jf jt g cs1 cfg out cs2 rs w Hg Hs1 Hs2 Hupd Hrun.
    apply run_app_inv in Hrun as (rs1 & w1 & rs2 & Hrun1 & Hrun2 & ->).
    apply run_cons_inv in Hrun2 as (r & w2 & rs' & Hstep & Hrun2 & ->).
    cbn [step] in Hstep. apply bind_inv in Hstep as (r' & w2' & Hup & [= _ ->]).
    assert (frame_acquired_ (self (boot b jf jt g)) = false) as Hf0 by by destruct b.
    destruct (run_stays_idle _ _ _ _ _ Hs1 Hrun1 Hf0) as [Hf1 Hr1].
    pose proof (run_wf b cs1 (boot b jf jt g) _ _ Hg Hrun1) as Hg1.
    destruct (onUpdateOutput_returns _ _ _ _ _ _ Hg1 Hup)
      as (_ & Hself & _).
    assert (frame_acquired_ (self w2) = false) as Hf2 by by rewrite Hself.
    destruct (run_stays_idle _ _ _ _ _ Hs2 Hrun2 Hf2) as [Hf [= _ _ Hp]].
    pose proof (run_textures _ _ _ _ _ Hupd Hrun2) as Ht.
    rewrite Hself in Hp, Ht. cbn in Hp, Ht.
    assert (frame_present_id_ (self w1) = 2) as Hp1.
    { destruct b; cbn in Hr1; by injection Hr1. }
    rewrite Hp1 in Hp.
    exists (N.succ (N.succ (GL.next_texture (gl w1)))).
    rewrite getNextFrame_eq. cbn zeta. rewrite Hf, Ht, Hp. cbn.
    split; [by destruct w|]. split; [lia|done].
Qed.

Lemma getNextFrame_before_first_swap_witness :
  let out := OutputCfg 0 false libvlc_video_colorspace_BT601
               libvlc_video_primaries_BT601_525 libvlc_video_transfer_func_LINEAR
               libvlc_video_orient_top_left in
  let w1 := (run SDL [OnSetup; GetNextFrame; OnCleanup]
               (boot SDL [# 0; 0; 0] [# 0; 0; 0] (GL.blank 4096))).2 in
  let w2 := (run GLFW ([OnSetup] ++ OnUpdateOutput (RenderCfg 640 480) out
                         :: [GetNextFrame; EngineDraw 5])
               (boot GLFW [# 7; 8; 9] [# 4; 5; 6] (GL.blank 4096))).2 in
  getNextFrame w1 = (Returns 0, w1)
  ∧ ∃ t, getNextFrame w2 = (Returns t, w2) ∧ t ≠ 0
         ∧ vec_to_list (textures_ (self w2)) !! 2%nat = Some t.
Proof.
  intros out w1 w2. destruct getNextFrame_before_first_swap as [Ha Hb]. split.
  - apply (Ha [# 0; 0; 0] [# 0; 0; 0] (GL.blank 4096)
             [OnSetup; GetNextFrame; OnCleanup] [Accepted true; Handle 0; Done]).
    + by apply (bool_decide_unpack _).
    + intros cfg o H.
      repeat (apply elem_of_cons in H as [H|H]; [discriminate|]).
      by apply elem_of_nil in H.
    + vm_compute. reflexivity.
  - apply (Hb GLFW [# 7; 8; 9] [# 4; 5; 6] (GL.blank 4096) [OnSetup]
             (RenderCfg 640 480) out [GetNextFrame; EngineDraw 5]
             [Accepted true;
              Negotiated true
                (OutputCfg GL.GL_RGBA true libvlc_video_colorspace_BT709
                   libvlc_video_primaries_BT709 libvlc_video_transfer_func_SRGB
                   libvlc_video_orient_top_left);
              Handle 3; Done]).
    + apply wf_blank.
    + by apply (bool_decide_unpack _).
    + by apply (bool_decide_unpack _).
    + intros cfg o H.
      repeat (apply elem_of_cons in H as [H|H]; [discriminate|]).
      by apply elem_of_nil in H.
    + vm_compute. reflexivity.
Defined.

Lemma names3_lookup t (i : nat) x :
  vec_to_list (GL.names 3 t) !! i = Some x →
  (i = 0%nat ∧ x = t) ∨ (i = 1%nat ∧ x = N.succ t) ∨ (i = 2%nat ∧ x = N.succ (N.succ t)).
Proof.
  destruct i as [|[|[|i]]]; cbn; intros H; simplify_eq; auto.
Qed.

(** The six names of a returning [onUpdateOutput] are new ones, and each
    slot's texture has storage of the requested size and is attached to the
    slot's framebuffer; whatever the context held before is still there. *)
Lemma onUpdateOutput_new_pairs b cfg out w r w' :
  GL.wf (gl w) → onUpdateOutput b cfg out w = (Returns r, w') →
  (∀ i, (i < 3)%nat →
     ∃ tex fbo,
       vec_to_list (textures_ (self w')) !! i = Some tex
       ∧ vec_to_list (fbos_ (self w')) !! i = Some fbo
       ∧ tex ≠ 0 ∧ fbo ≠ 0
       ∧ GL.textures (gl w) !! tex = None
       ∧ GL.framebuffers (gl w) !! fbo = None
       ∧ GL.textures (gl w') !! tex = Some (GL.Texture (width cfg) (height cfg) None)
       ∧ GL.framebuffers (gl w') !! fbo = Some (Some tex))
  ∧ (∀ k x, GL.textures (gl w) !! k = Some x → GL.textures (gl w') !! k = Some x)
  ∧ (∀ k x, GL.framebuffers (gl w) !! k = Some x →
            GL.framebuffers (gl w') !! k = Some x).
Proof.
  intros Hwf Hrun.
  destruct (onUpdateOutput_returns _ _ _ _ _ _ Hwf Hrun)
    as (_ & Hself & fbo & _ & Hobj & _).
  destruct Hwf as (Hnt & Hnf & _ & _ & Hts & Hfs).
  destruct (objects_fields _ _ Hobj) as (_ & _ & Ht & Hf & _). cbn in Ht, Hf.
  rewrite Hself, Ht, Hf. cbn [textures_ fbos_]. clear Hself Ht Hf Hobj.
  set (t := GL.next_texture (gl w)) in *.
  set (f := GL.next_framebuffer (gl w)) in *.
  split; [|split].
  - intros i Hi. destruct i as [|[|[|i]]]; [| | |lia]; cbn;
      eexists _, _; (split; [done|]); (split; [done|]);
      (split; [lia|]); (split; [lia|]);
      (split; [apply Hts; lia|]); (split; [apply Hfs; lia|]);
      split; rewrite ?lookup_insert_ne by lia; by rewrite lookup_insert_eq.
  - intros k x Hk.
    assert (k < t) as Hlt.
    { destruct (decide (t ≤ k)) as [Hle|]; [|lia]. by rewrite (Hts _ Hle) in Hk. }
    by rewrite !lookup_insert_ne by lia.
  - intros k x Hk.
    assert (k < f) as Hlt.
    { destruct (decide (f ≤ k)) as [Hle|]; [|lia]. by rewrite (Hfs _ Hle) in Hk. }
    by rewrite !lookup_insert_ne by lia.
Qed.

(** C4, counterexample: in [sdl_opengl.cpp], after a first allocation and
    one [onSwap], a second [onUpdateOutput] returns with the roles still at
    render=1, swap=0, present=2, and with texture 1 and framebuffer 1 of the
    first allocation still alive in the context. *)
Lemma onUpdateOutput_no_reset_no_destroy :
  let out := OutputCfg 0 false libvlc_video_colorspace_BT601
               libvlc_video_primaries_BT601_525 libvlc_video_transfer_func_LINEAR
               libvlc_video_orient_top_left in
  let w := (run SDL [OnUpdateOutput (RenderCfg 640 480) out; OnSwap]
              (boot SDL [# 0; 0; 0] [# 0; 0; 0] (GL.blank 4096))).2 in
  let res := onUpdateOutput SDL (RenderCfg 1280 720) out w in
  (∃ out', res.1 = Returns (true, out'))
  ∧ roles (self res.2) = [1; 0; 2]
  ∧ roles (self res.2) ≠ [0; 1; 2]
  ∧ GL.textures (gl res.2) !! 1 = Some (GL.Texture 640 480 None)
  ∧ GL.framebuffers (gl res.2) !! 1 = Some (Some 1).
Proof.
  cbn zeta. split; [eexists; vm_compute; reflexivity|].
  repeat split; by vm_compute.
Qed.

(** C4, as amended: every [onUpdateOutput] that returns has created three
    new texture and framebuffer pairs at the given dimensions and recorded
    the dimensions; it has left the role indices and the acquisition flag
    as they were. *)
Theorem onUpdateOutput_allocates_without_reset b cfg out w r w' :
  GL.wf (gl w) → onUpdateOutput b cfg out w = (Returns r, w') →
  (∀ i, (i < 3)%nat →
     ∃ tex fbo,
       vec_to_list (textures_ (self w')) !! i = Some tex
       ∧ vec_to_list (fbos_ (self w')) !! i = Some fbo
       ∧ tex ≠ 0 ∧ fbo ≠ 0
       ∧ GL.textures (gl w) !! tex = None
       ∧ GL.framebuffers (gl w) !! fbo = None
       ∧ GL.textures (gl w') !! tex = Some (GL.Texture (width cfg) (height cfg) None)
       ∧ GL.framebuffers (gl w') !! fbo = Some (Some tex))
  ∧ frame_width_ (self w') = width cfg
  ∧ frame_height_ (self w') = height cfg
  ∧ roles (self w') = roles (self w)
  ∧ frame_acquired_ (self w') = frame_acquired_ (self w).
Proof.
  intros Hwf Hrun.
  destruct (onUpdateOutput_new_pairs _ _ _ _ _ _ Hwf Hrun) as (Hnew & _ & _).
  destruct (onUpdateOutput_returns _ _ _ _ _ _ Hwf Hrun) as (_ & Hself & _).
  split; [done|]. rewrite Hself. by repeat split.
Qed.

Lemma onUpdateOutput_allocates_without_reset_witness :
  let out := OutputCfg 0 false libvlc_video_colorspace_BT601
               libvlc_video_primaries_BT601_525 libvlc_video_transfer_func_LINEAR
               libvlc_video_orient_top_left in
  let w := (run GLFW [OnUpdateOutput (RenderCfg 640 480) out; OnSwap]
              (boot GLFW [# 7; 8; 9] [# 4; 5; 6] (GL.blank 4096))).2 in
  let w' := (onUpdateOutput GLFW (RenderCfg 1280 720) out w).2 in
  roles (self w') = roles (self w)
  ∧ frame_acquired_ (self w') = frame_acquired_ (self w).
Proof.
  intros out w w'.
  refine (proj2 (proj2 (proj2
    (onUpdateOutput_allocates_without_reset GLFW (RenderCfg 1280 720) out w
       (true, OutputCfg GL.GL_RGBA true libvlc_video_colorspace_BT709
                libvlc_video_primaries_BT709 libvlc_video_transfer_func_SRGB
                libvlc_video_orient_top_left) w' _ _)))).
  - apply (run_wf GLFW [OnUpdateOutput (RenderCfg 640 480) out; OnSwap]
             (boot GLFW [# 7; 8; 9] [# 4; 5; 6] (GL.blank 4096))
             [Negotiated true
                (OutputCfg GL.GL_RGBA true libvlc_video_colorspace_BT709
                   libvlc_video_primaries_BT709 libvlc_video_transfer_func_SRGB
                   libvlc_video_orient_top_left); Done]).
    + apply wf_blank.
    + vm_compute. reflexivity.
  - vm_compute. reflexivity.
Defined.

(** C5, counterexample: in [sdl_opengl.cpp], a second [onUpdateOutput] with
    the very dimensions that are recorded returns with three other texture
    names in the array, names that denote textures the context did not have
    before the call. *)
Lemma onUpdateOutput_same_size_reallocates :
  let out := OutputCfg 0 false libvlc_video_colorspace_BT601
               libvlc_video_primaries_BT601_525 libvlc_video_transfer_func_LINEAR
               libvlc_video_orient_top_left in
  let w := (run SDL [OnUpdateOutput (RenderCfg 640 480) out]
              (boot SDL [# 0; 0; 0] [# 0; 0; 0] (GL.blank 4096))).2 in
  let res := onUpdateOutput SDL (RenderCfg 640 480) out w in
  (frame_width_ (self w) = 640 ∧ frame_height_ (self w) = 480)
  ∧ (∃ out', res.1 = Returns (true, out'))
  ∧ textures_ (self w) = [# 1; 2; 3]
  ∧ textures_ (self res.2) = [# 4; 5; 6]
  ∧ fbos_ (self res.2) = [# 4; 5; 6]
  ∧ GL.textures (gl w) !! 4 = None
  ∧ GL.textures (gl res.2) !! 4 = Some (GL.Texture 640 480 None)
  ∧ GL.framebuffers (gl w) !! 4 = None
  ∧ GL.framebuffers (gl res.2) !! 4 = Some (Some 4).
Proof.
  cbn zeta. split; [split; by vm_compute|].
  split; [eexists; vm_compute; reflexivity|].
  repeat split; by vm_compute.
Qed.

(** C5, as amended: every [onUpdateOutput] that returns has generated three
    new textures and three new framebuffers, whether or not the requested
    dimensions equal the recorded ones; the comparison only decides whether
    the size-changed message is printed. *)
Theorem onUpdateOutput_allocates_whatever_the_size b cfg out w r w' :
  GL.wf (gl w) → onUpdateOutput b cfg out w = (Returns r, w') →
  (∀ tex, tex ∈ vec_to_list (textures_ (self w')) →
          GL.textures (gl w) !! tex = None ∧ is_Some (GL.textures (gl w') !! tex))
  ∧ (∀ fbo, fbo ∈ vec_to_list (fbos_ (self w')) →
            GL.framebuffers (gl w) !! fbo = None
            ∧ is_Some (GL.framebuffers (gl w') !! fbo))
  ∧ ∃ tail,
      cerr w' = cerr w
                ++ (if bool_decide (frame_width_ (self w) ≠ width cfg)
                       || bool_decide (frame_height_ (self w) ≠ height cfg)
                    then [SizeChanged (width cfg) (height cfg)] else [])
                ++ tail
      ∧ ∀ m, m ∈ tail → ∃ e, m = GLError e.
Proof.
  intros Hwf Hrun.
  destruct (onUpdateOutput_new_pairs _ _ _ _ _ _ Hwf Hrun) as (Hnew & _ & _).
  destruct (onUpdateOutput_returns _ _ _ _ _ _ Hwf Hrun)
    as (_ & _ & fbo & _ & _ & Hcerr).
  split; [|split; [|done]].
  - intros tex (i & Hi)%list_elem_of_lookup.
    assert (i < 3)%nat as Hlt.
    { apply lookup_lt_Some in Hi. by rewrite length_vec_to_list in Hi. }
    destruct (Hnew i Hlt) as (tex' & fbo' & Ht & _ & _ & _ & Hold & _ & Hnew' & _).
    rewrite Hi in Ht. injection Ht as <-. split; [done|]. by rewrite Hnew'.
  - intros fb (i & Hi)%list_elem_of_lookup.
    assert (i < 3)%nat as Hlt.
    { apply lookup_lt_Some in Hi. by rewrite length_vec_to_list in Hi. }
    destruct (Hnew i Hlt) as (tex' & fbo' & _ & Hf & _ & _ & _ & Hold & _ & Hnew').
    rewrite Hi in Hf. injection Hf as <-. split; [done|]. by rewrite Hnew'.
Qed.

Lemma onUpdateOutput_allocates_whatever_the_size_witness :
  let out := OutputCfg 0 false libvlc_video_colorspace_BT601
               libvlc_video_primaries_BT601_525 libvlc_video_transfer_func_LINEAR
               libvlc_video_orient_top_left in
  let w := (run GLFW [OnUpdateOutput (RenderCfg 640 480) out]
              (boot GLFW [# 7; 8; 9] [# 4; 5; 6] (GL.blank 4096))).2 in
  let w' := (onUpdateOutput GLFW (RenderCfg 640 480) out w).2 in
  GL.textures (gl w) !! 4 = None ∧ is_Some (GL.textures (gl w') !! 4).
Proof.
  intros out w w'.
  refine (proj1
    (onUpdateOutput_allocates_whatever_the_size GLFW (RenderCfg 640 480) out w
       (true, OutputCfg GL.GL_RGBA true libvlc_video_colorspace_BT709
                libvlc_video_primaries_BT709 libvlc_video_transfer_func_SRGB
                libvlc_video_orient_top_left) w' _ _) 4 _).
  3: { apply (bool_decide_unpack _). vm_compute. reflexivity. }
  - apply (run_wf GLFW [OnUpdateOutput (RenderCfg 640 480) out]
             (boot GLFW [# 7; 8; 9] [# 4; 5; 6] (GL.blank 4096))
             [Negotiated true
                (OutputCfg GL.GL_RGBA true libvlc_video_colorspace_BT709
                   libvlc_video_primaries_BT709 libvlc_video_transfer_func_SRGB
                   libvlc_video_orient_top_left)]).
    + apply wf_blank.
    + vm_compute. reflexivity.
  - vm_compute. reflexivity.
Defined.

(** ** Publishing and acquiring on an allocated ring *)

Lemma CHECK_GL_ERRORS_glfw_returns w :
  ∃ w', CHECK_GL_ERRORS GLFW w = (Returns (), w')
        ∧ self w' = self w ∧ GL.resources (gl w') = GL.resources (gl w).
Proof.
  destruct w as [fc g l]. unfold CHECK_GL_ERRORS. run_M.
  destruct (decide _); eexists; done.
Qed.

Lemma ring_ready_resources w w' :
  self w' = self w → GL.resources (gl w') = GL.resources (gl w) →
  ring_ready w → ring_ready w'.
Proof.
  unfold ring_ready, GL.resources. intros -> [= -> -> _ ->]. done.
Qed.

Lemma onUpdateOutput_ready b cfg out w r w' :
  GL.wf (gl w) → roles_ok (self w) →
  onUpdateOutput b cfg out w = (Returns r, w') → ring_ready w'.
Proof.
  intros Hwf Hroles Hrun.
  destruct (onUpdateOutput_new_pairs _ _ _ _ _ _ Hwf Hrun) as (Hnew & _ & _).
  destruct (onUpdateOutput_returns _ _ _ _ _ _ Hwf Hrun)
    as (_ & Hself & fbo & Hfbo & Hobj & _).
  destruct (objects_fields _ _ Hobj) as (_ & _ & _ & _ & _ & Hbind & _).
  cbn in Hbind.
  split; [by rewrite Hself|]. split; [|split].
  - rewrite Hself. cbn. apply NoDup_cons. split.
    { rewrite !elem_of_cons, elem_of_nil. lia. }
    apply NoDup_cons. split.
    { rewrite !elem_of_cons, elem_of_nil. lia. }
    apply NoDup_singleton.
  - intros i tex fb Ht Hf.
    assert (i < 3)%nat as Hlt.
    { apply lookup_lt_Some in Ht. by rewrite length_vec_to_list in Ht. }
    destruct (Hnew i Hlt) as (tex' & fb' & Ht' & Hf' & ? & ? & _ & _ & Htex & Hfb).
    rewrite Ht in Ht'. rewrite Hf in Hf'. simplify_eq.
    repeat split; try done. all: by rewrite ?Htex.
  - rewrite Hbind, Hself. exact Hfbo.
Qed.

Lemma run_draw_swap b w p w' :
  onSwap b (World (self w) (GL.draw p (gl w)) (cerr w)) = (Returns (), w') →
  run b [EngineDraw p; OnSwap] w = (Returns [Done; Done], w').
Proof.
  intros H. cbn [run step].
  rewrite (bind_returns _ _ w Done (World (self w) (GL.draw p (gl w)) (cerr w)))
    by reflexivity.
  rewrite (bind_returns _ _ _ [Done] w'); [reflexivity|].
  rewrite (bind_returns _ _ _ Done w'); [reflexivity|].
  by rewrite (bind_returns _ _ _ _ _ H).
Qed.

(** The decoder draws [p] and publishes: both calls return, the roles
    render and swap are exchanged, the flag is set, the texture of the
    former render slot holds [p], and no other texture has changed. *)
Lemma publish_ready b w p :
  ring_ready w →
  ∃ w' tex,
    run b [EngineDraw p; OnSwap] w = (Returns [Done; Done], w')
    ∧ ring_ready w'
    ∧ self w' = set_frame_acquired true (swap_render_swap (self w))
    ∧ vec_to_list (textures_ (self w)) !! N.to_nat (frame_render_id_ (self w)) = Some tex
    ∧ shows (gl w') tex p
    ∧ ∀ t, t ≠ tex → GL.textures (gl w') !! t = GL.textures (gl w) !! t.
Proof.
  intros (Hroles & Hnd & Hslots & Hbound).
  destruct (roles_ok_lt _ Hroles) as (Hr & Hs & _).
  destruct (at_slot (textures_ (self w)) _ Hr) as [texR HtexR].
  destruct (at_slot (fbos_ (self w)) _ Hs) as [fboS HfboS].
  destruct (at_slot (textures_ (self w)) _ Hs) as [texS HtexS].
  destruct (Hslots _ _ _ HtexR Hbound) as (_ & _ & HfbR & [xR HxR]).
  destruct (Hslots _ _ _ HtexS HfboS) as (_ & HfboS0 & HfbS & _).
  set (g1 := GL.draw p (gl w)).
  assert (GL.framebuffers g1 = GL.framebuffers (gl w)
          ∧ GL.textures g1
            = alter (λ tex, GL.Texture (GL.tex_width tex) (GL.tex_height tex) (Some p))
                    texR (GL.textures (gl w))) as [Hfb1 Htx1].
  { unfold g1, GL.draw, GL.render_target. rewrite HfbR. by destruct (gl w). }
  set (w2 := World (set_frame_acquired true (swap_render_swap (self w)))
               (GL.set_framebuffer_binding fboS g1) (cerr w)).
  assert (ring_ready w2 ∧ shows (gl w2) texR p
          ∧ ∀ t, t ≠ texR → GL.textures (gl w2) !! t = GL.textures (gl w) !! t)
    as (Hready2 & Hshow2 & Hother2).
  { split; [|split].
    - split; [by apply swap_render_swap_roles_ok|]. split; [done|]. split; [|done].
      intros i tex fb Ht Hf. unfold w2. cbn.
      destruct (Hslots _ _ _ Ht Hf) as (? & ? & Hfb & [x Hx]).
      repeat split; try done.
      + replace (GL.framebuffers (GL.set_framebuffer_binding fboS g1))
          with (GL.framebuffers g1) by by destruct g1.
        by rewrite Hfb1.
      + replace (GL.textures (GL.set_framebuffer_binding fboS g1))
          with (GL.textures g1) by by destruct g1.
        rewrite Htx1, lookup_alter. case_decide; subst; rewrite ?Hx, ?HxR; eauto.
    - unfold shows, w2. cbn.
      replace (GL.textures (GL.set_framebuffer_binding fboS g1))
        with (GL.textures g1) by by destruct g1.
      rewrite Htx1, lookup_alter, decide_True by done. rewrite HxR. cbn. eauto.
    - intros t Ht. unfold w2. cbn.
      replace (GL.textures (GL.set_framebuffer_binding fboS g1))
        with (GL.textures g1) by by destruct g1.
      by rewrite Htx1, lookup_alter, decide_False. }
  assert (onSwap b (World (self w) g1 (cerr w))
          = when (bool_decide (b = GLFW)) (CHECK_GL_ERRORS b) w2) as Hswap.
  { rewrite onSwap_eq. cbn. rewrite HfboS. unfold w2. do 2 f_equal.
    unfold GL.glBindFramebuffer. rewrite decide_False by done.
    by rewrite Hfb1, HfbS. }
  destruct b.
  - rewrite bool_decide_eq_true_2 in Hswap by done. unfold when in Hswap.
    destruct (CHECK_GL_ERRORS_glfw_returns w2) as (w' & Hchk & Hs' & Hg').
    rewrite Hchk in Hswap.
    exists w', texR. split; [by apply run_draw_swap|].
    split; [by eapply ring_ready_resources|].
    split; [done|]. split; [done|].
    injection Hg' as Ht' _ _ _. unfold shows. rewrite Ht'. done.
  - rewrite bool_decide_eq_false_2 in Hswap by done.
    exists w2, texR. split; [by apply run_draw_swap|]. done.
Qed.

(** The display acquires a published frame: the call returns the texture
    of the swap slot, exchanges swap and present and clears the flag. *)
Lemma acquire_ready w :
  ring_ready w → frame_acquired_ (self w) = true →
  ∃ tex,
    vec_to_list (textures_ (self w)) !! N.to_nat (frame_swap_id_ (self w)) = Some tex
    ∧ getNextFrame w
      = (Returns tex,
         World (set_frame_acquired false (swap_present_swap (self w))) (gl w) (cerr w))
    ∧ ring_ready
        (World (set_frame_acquired false (swap_present_swap (self w))) (gl w) (cerr w)).
Proof.
  intros (Hroles & Hnd & Hslots & Hbound) Hacq.
  destruct (roles_ok_lt _ Hroles) as (_ & Hs & _).
  destruct (at_slot (textures_ (self w)) _ Hs) as [tex Htex].
  exists tex. split; [done|]. split.
  - rewrite getNextFrame_eq. cbn zeta. rewrite Hacq. cbn. by rewrite Htex.
  - split; [by apply swap_present_swap_roles_ok|]. done.
Qed.

Lemma run_getNextFrame b w t w' :
  getNextFrame w = (Returns t, w') →
  run b [GetNextFrame] w = (Returns [Handle t], w').
Proof. intros H. cbn [run step]. rewrite !bind_unfold, H. reflexivity. Qed.

(** C7: on a ring freshly allocated by [onUpdateOutput], drawing picture A
    and publishing, acquiring, drawing picture B and publishing, acquiring
    yields first the texture that holds A, then the texture that holds B;
    and when A and B are both published before the first acquire, that
    acquire yields the texture that holds B, while the texture that holds A
    is another one and is not handed out. *)
Theorem newest_wins b junk_fbos junk_textures g cfg out r w0 A B :
  GL.wf g →
  onUpdateOutput b cfg out (boot b junk_fbos junk_textures g) = (Returns r, w0) →
  let tA := GL.next_texture g in
  let tB := N.succ (GL.next_texture g) in
  (∃ w1 w2,
     run b [EngineDraw A; OnSwap; GetNextFrame] w0
     = (Returns [Done; Done; Handle tA], w1)
     ∧ shows (gl w1) tA A
     ∧ run b [EngineDraw B; OnSwap; GetNextFrame] w1
       = (Returns [Done; Done; Handle tB], w2)
     ∧ shows (gl w2) tB B)
  ∧ (∃ w2,
       run b [EngineDraw A; OnSwap; EngineDraw B; OnSwap; GetNextFrame] w0
       = (Returns [Done; Done; Done; Done; Handle tB], w2)
       ∧ shows (gl w2) tB B
       ∧ shows (gl w2) tA A
       ∧ tA ≠ tB).
Proof.
  intros Hwf Hrun tA tB.
  assert (roles_ok (self (boot b junk_fbos junk_textures g))) as Hroles0
    by (apply (initial_roles_ok b); unfold initial; eauto).
  pose proof (onUpdateOutput_ready b cfg out (boot b junk_fbos junk_textures g)
                _ _ Hwf Hroles0 Hrun) as Hready0.
  destruct (onUpdateOutput_returns b cfg out (boot b junk_fbos junk_textures g)
              _ _ Hwf Hrun) as (_ & Hself0 & _).
  assert (self w0 = Build_FrameCapture (GL.names 3 (GL.next_framebuffer g))
                      (GL.names 3 tA) 0 1 2 (width cfg) (height cfg) false) as Hs0.
  { rewrite Hself0. by destruct b. }
  clear Hself0 Hroles0 Hrun.
  destruct (publish_ready b w0 A Hready0)
    as (w1 & tex1 & Hrun1 & Hready1 & Hs1 & Htex1 & Hshow1 & _).
  rewrite Hs0 in Hs1, Htex1. cbv [set_frame_acquired swap_render_swap swap_present_swap] in Hs1, Htex1; cbn in Hs1, Htex1. injection Htex1 as <-.
  assert (frame_acquired_ (self w1) = true) as Hacq1 by by rewrite Hs1.
  split.
  - destruct (acquire_ready w1 Hready1 Hacq1) as (t1 & Ht1 & Hget1 & Hready1').
    rewrite Hs1 in Ht1, Hget1, Hready1'.
    cbv [set_frame_acquired swap_render_swap swap_present_swap] in Ht1, Hget1, Hready1';
      cbn in Ht1, Hget1, Hready1'.
    injection Ht1 as <-.
    set (w1' := World _ (gl w1) (cerr w1)) in *.
    destruct (publish_ready b w1' B Hready1')
      as (w2 & tex2 & Hrun2 & Hready2 & Hs2 & Htex2 & Hshow2 & _).
    cbv [set_frame_acquired swap_render_swap swap_present_swap] in Hs2, Htex2;
      cbn in Hs2, Htex2.
    injection Htex2 as <-.
    assert (frame_acquired_ (self w2) = true) as Hacq2 by by rewrite Hs2.
    destruct (acquire_ready w2 Hready2 Hacq2) as (t2 & Ht2 & Hget2 & _).
    rewrite Hs2 in Ht2, Hget2. cbn in Ht2, Hget2. injection Ht2 as <-.
    eexists w1', _. split.
    { exact (run_app b _ _ _ _ _ _ _ Hrun1 (run_getNextFrame b _ _ _ Hget1)). }
    split; [exact Hshow1|]. split.
    { exact (run_app b _ _ _ _ _ _ _ Hrun2 (run_getNextFrame b _ _ _ Hget2)). }
    exact Hshow2.
  - destruct (publish_ready b w1 B Hready1)
      as (w2 & tex2 & Hrun2 & Hready2 & Hs2 & Htex2 & Hshow2 & Hother2).
    rewrite Hs1 in Hs2, Htex2.
    cbv [set_frame_acquired swap_render_swap swap_present_swap] in Hs2, Htex2;
      cbn in Hs2, Htex2.
    injection Htex2 as <-.
    assert (frame_acquired_ (self w2) = true) as Hacq2 by by rewrite Hs2.
    destruct (acquire_ready w2 Hready2 Hacq2) as (t2 & Ht2 & Hget2 & _).
    rewrite Hs2 in Ht2, Hget2. cbn in Ht2, Hget2. injection Ht2 as <-.
    assert (tA ≠ tB) as Hne by (unfold tA, tB; lia).
    eexists. split.
    { exact (run_app b _ _ _ _ _ _ _ Hrun1
               (run_app b _ _ _ _ _ _ _ Hrun2 (run_getNextFrame b _ _ _ Hget2))). }
    split; [exact Hshow2|]. split; [|done].
    unfold shows. cbn. rewrite Hother2 by done. exact Hshow1.
Qed.

Lemma newest_wins_witness :
  let out := OutputCfg 0 false libvlc_video_colorspace_BT601
               libvlc_video_primaries_BT601_525 libvlc_video_transfer_func_LINEAR
               libvlc_video_orient_top_left in
  let w0 := (onUpdateOutput SDL (RenderCfg 640 480) out
               (boot SDL [# 0; 0; 0] [# 0; 0; 0] (GL.blank 4096))).2 in
  (∃ w1 w2,
     run SDL [EngineDraw 100; OnSwap; GetNextFrame] w0
     = (Returns [Done; Done; Handle 1], w1)
     ∧ shows (gl w1) 1 100
     ∧ run SDL [EngineDraw 200; OnSwap; GetNextFrame] w1
       = (Returns [Done; Done; Handle 2], w2)
     ∧ shows (gl w2) 2 200)
  ∧ (∃ w2,
       run SDL [EngineDraw 100; OnSwap; EngineDraw 200; OnSwap; GetNextFrame] w0
       = (Returns [Done; Done; Done; Done; Handle 2], w2)
       ∧ shows (gl w2) 2 200
       ∧ shows (gl w2) 1 100
       ∧ 1 ≠ 2).
Proof.
  intros out w0.
  apply (newest_wins SDL [# 0; 0; 0] [# 0; 0; 0] (GL.blank 4096)
           (RenderCfg 640 480) out
           (true, OutputCfg GL.GL_RGBA true libvlc_video_colorspace_BT709
                    libvlc_video_primaries_BT709 libvlc_video_transfer_func_SRGB
                    libvlc_video_orient_top_left) w0 100 200).
  - apply wf_blank.
  - vm_compute. reflexivity.
Defined.

(** ** Further properties of the class *)

(** X1: a call of [onUpdateOutput] never returns false.  Whenever it
    returns, the result is true, and the descriptor is the fixed
    configuration of the example: in [glfw_sample.cpp] all six fields, in
    [sdl_opengl.cpp] the five it sets, the orientation being the one that
    was passed in. *)
Theorem onUpdateOutput_returns_true b cfg out w r w' :
  onUpdateOutput b cfg out w = (Returns r, w') →
  r = (true, descriptor b out).
Proof.
  intros H. rewrite (onUpdateOutput_descriptor _ _ _ _ _ _ H). by destruct b.
Qed.

Lemma onUpdateOutput_returns_true_witness :
  let out := OutputCfg 0 false libvlc_video_colorspace_BT601
               libvlc_video_primaries_BT601_525 libvlc_video_transfer_func_LINEAR
               libvlc_video_orient_left_top in
  let w := boot SDL [# 0; 0; 0] [# 0; 0; 0] (GL.blank 4096) in
  let r := (true, OutputCfg GL.GL_RGBA true libvlc_video_colorspace_BT709
                    libvlc_video_primaries_BT709 libvlc_video_transfer_func_SRGB
                    libvlc_video_orient_left_top) in
  onUpdateOutput SDL (RenderCfg 640 480) out w
  = (Returns r, (onUpdateOutput SDL (RenderCfg 640 480) out w).2)
  ∧ r = (true, descriptor SDL out).
Proof.
  intros out w r.
  assert (onUpdateOutput SDL (RenderCfg 640 480) out w
          = (Returns r, (onUpdateOutput SDL (RenderCfg 640 480) out w).2)) as H
    by (vm_compute; reflexivity).
  split; [exact H|].
  exact (onUpdateOutput_returns_true SDL (RenderCfg 640 480) out w r _ H).
Defined.

(** X2: in every reachable state [onSwap] returns: the index it passes to
    [std::array::at] is in range, so no [std::out_of_range] leaves the
    callback; it leaves the flag set. *)
Theorem onSwap_returns b w :
  reachable b w →
  ∃ w', onSwap b w = (Returns (), w') ∧ frame_acquired_ (self w') = true.
Proof.
  intros Hw. pose proof (reachable_roles_ok _ _ Hw) as Hroles.
  apply swap_render_swap_roles_ok, roles_ok_lt in Hroles as (Hr & _).
  destruct (at_slot (fbos_ (swap_render_swap (self w))) _ Hr) as [fbo Hfbo].
  rewrite onSwap_eq. cbn zeta. rewrite Hfbo. destruct b.
  - rewrite bool_decide_eq_true_2 by done. unfold when.
    match goal with |- context [CHECK_GL_ERRORS GLFW ?x] =>
      destruct (CHECK_GL_ERRORS_glfw_returns x) as (w' & -> & Hs & _)
    end.
    exists w'. split; [done|]. by rewrite Hs.
  - rewrite bool_decide_eq_false_2 by done. eexists. split; [reflexivity|done].
Qed.

Lemma onSwap_returns_witness :
  let w := (run GLFW [GetNextFrame; OnSwap; OnSwap]
              (boot GLFW [# 7; 8; 9] [# 4; 5; 6] (GL.blank 4096))).2 in
  ∃ w', onSwap GLFW w = (Returns (), w') ∧ frame_acquired_ (self w') = true.
Proof.
  intros w. apply (onSwap_returns GLFW w).
  exists (boot GLFW [# 7; 8; 9] [# 4; 5; 6] (GL.blank 4096)). split.
  - exists [# 7; 8; 9], [# 4; 5; 6], (GL.blank 4096). reflexivity.
  - exists [GetNextFrame; OnSwap; OnSwap], [Handle 6; Done; Done].
    vm_compute. reflexivity.
Defined.

Lemma step_pending b c w r w' :
  step b c w = (Returns r, w') →
  frame_acquired_ (self w') = pending_after (frame_acquired_ (self w)) c.
Proof.
  intros Hstep. destruct c; cbn [pending_after].
  - cbn [step] in Hstep. apply bind_inv in Hstep as (t & w1 & Hget & [= _ <-]).
    rewrite getNextFrame_eq in Hget. cbn zeta in Hget.
    destruct (frame_acquired_ (self w)) eqn:E;
      destruct (_ !! _); simplify_eq; done.
  - assert (keeps (on_self (same frame_acquired_)) (step b OnSetup)) as Hk
      by (unfold step, onSetup; keeps_self; reflexivity).
    specialize (Hk w). by rewrite Hstep in Hk.
  - assert (keeps (on_self (same frame_acquired_)) (step b OnCleanup)) as Hk
      by (unfold step, onCleanup; keeps_self; reflexivity).
    specialize (Hk w). by rewrite Hstep in Hk.
  - assert (keeps (on_self (same frame_acquired_)) (step b (OnUpdateOutput cfg out))) as Hk
      by (unfold step, onUpdateOutput; keeps_self; reflexivity).
    specialize (Hk w). by rewrite Hstep in Hk.
  - cbn [step] in Hstep. apply bind_inv in Hstep as ([] & w1 & Hswap & [= _ <-]).
    rewrite onSwap_eq in Hswap. cbn zeta in Hswap.
    destruct (_ !! _); [|done].
    apply when_CHECK_returns in Hswap as (-> & _). done.
  - assert (keeps (on_self (same frame_acquired_)) (step b (EngineDraw p))) as Hk
      by (unfold step, engine_draw; keeps_self; reflexivity).
    specialize (Hk w). by rewrite Hstep in Hk.
Qed.

(** X3: the acquisition flag says whether a frame was published since the
    display last asked.  After any sequence of returning calls on a new
    object it is true exactly when, of the [onSwap] and [getNextFrame]
    calls in the sequence, the last one is an [onSwap]. *)
Theorem frame_acquired_is_last_publish b w0 cs rs w :
  initial b w0 → run b cs w0 = (Returns rs, w) →
  frame_acquired_ (self w) = foldl pending_after false cs.
Proof.
  intros Hi.
  assert (frame_acquired_ (self w0) = false) as Hf0.
  { destruct Hi as (jf & jt & g & ->). by destruct b. }
  rewrite <- Hf0. clear Hi Hf0. revert w0 rs.
  induction cs as [|c cs IH]; intros w0 rs Hrun.
  - by injection Hrun as _ <-.
  - apply run_cons_inv in Hrun as (r & w1 & rs' & Hstep & Hrun & ->).
    cbn [foldl]. rewrite (IH _ _ Hrun). by rewrite (step_pending _ _ _ _ _ Hstep).
Qed.

Lemma frame_acquired_is_last_publish_witness :
  let w0 := boot SDL [# 0; 0; 0] [# 0; 0; 0] (GL.blank 4096) in
  let cs := [OnSwap; GetNextFrame; OnSetup; OnSwap; OnCleanup] in
  frame_acquired_ (self (run SDL cs w0).2) = foldl pending_after false cs.
Proof.
  intros w0 cs.
  apply (frame_acquired_is_last_publish SDL w0 cs
           [Done; Handle 0; Accepted true; Done; Done]).
  - exists [# 0; 0; 0], [# 0; 0; 0], (GL.blank 4096). reflexivity.
  - vm_compute. reflexivity.
Defined.

(** *** Any interleaving of publishing and acquiring *)

Lemma acquire_idle_ready w :
  ring_ready w → frame_acquired_ (self w) = false →
  ∃ tex,
    vec_to_list (textures_ (self w)) !! N.to_nat (frame_present_id_ (self w)) = Some tex
    ∧ getNextFrame w = (Returns tex, w).
Proof.
  intros (Hroles & _) Hidle.
  destruct (roles_ok_lt _ Hroles) as (_ & _ & Hp).
  destruct (at_slot (textures_ (self w)) _ Hp) as [tex Htex].
  exists tex. split; [done|].
  rewrite getNextFrame_eq. cbn zeta. rewrite Hidle, Htex. by destruct w.
Qed.

Lemma event_ready b e w o :
  ring_ready w → shows_latest w o →
  ∃ rs w',
    run b (calls_of e) w = (Returns rs, w')
    ∧ ring_ready w' ∧ shows_latest w' (latest o [e])
    ∧ (e = Acquire → ∃ t, rs = [Handle t] ∧ next_handle w = Some t ∧ gl w' = gl w).
Proof.
  intros Hready Hvis. destruct e as [p|]; cbn [calls_of latest foldl].
  - destruct (publish_ready b w p Hready)
      as (w' & tex & Hrun & Hready' & Hself & Htex & Hshow & _).
    exists [Done; Done], w'. split; [done|]. split; [done|]. split; [|done].
    intros q [= <-]. exists tex. split; [|done].
    unfold next_handle. by rewrite Hself.
  - destruct (frame_acquired_ (self w)) eqn:Hacq.
    + destruct (acquire_ready w Hready Hacq) as (tex & Htex & Hget & Hready').
      eexists [Handle tex], _. split; [by apply run_getNextFrame|].
      split; [done|]. split.
      * intros p Hp. destruct (Hvis p Hp) as (t & Ht & Hshow).
        unfold next_handle in Ht. rewrite Hacq in Ht.
        exists t. split; [|done]. unfold next_handle. by cbn.
      * intros _. exists tex. split; [done|]. split; [|done].
        unfold next_handle. by rewrite Hacq.
    + destruct (acquire_idle_ready w Hready Hacq) as (tex & Htex & Hget).
      exists [Handle tex], w. split; [by apply run_getNextFrame|].
      split; [done|]. split; [done|].
      intros _. exists tex. split; [done|]. split; [|done].
      unfold next_handle. by rewrite Hacq.
Qed.

Lemma events_ready b es w o :
  ring_ready w → shows_latest w o →
  ∃ rs w',
    run b (es ≫= calls_of) w = (Returns rs, w')
    ∧ ring_ready w' ∧ shows_latest w' (latest o es).
Proof.
  revert w o. induction es as [|e es IH]; intros w o Hready Hvis.
  - exists [], w. done.
  - destruct (event_ready b e w o Hready Hvis) as (rs1 & w1 & Hrun1 & Hready1 & Hvis1 & _).
    destruct (IH w1 _ Hready1 Hvis1) as (rs2 & w2 & Hrun2 & Hready2 & Hvis2).
    exists (rs1 ++ rs2), w2. split; [|done].
    cbn. by eapply run_app.
Qed.

(** X4: on an allocated ring, whatever the interleaving of the decoder
    publishing pictures and the display acquiring, all the calls return and
    a [getNextFrame] hands out the texture that holds the picture published
    last: never an older one, and the same one again while nothing new is
    published. *)
Theorem latest_picture_is_acquired b w es p :
  ring_ready w → latest None es = Some p →
  ∃ rs t w',
    run b ((es ≫= calls_of) ++ [GetNextFrame]) w = (Returns (rs ++ [Handle t]), w')
    ∧ shows (gl w') t p.
Proof.
  intros Hready Hlast.
  destruct (events_ready b es w None Hready) as (rs & w1 & Hrun & Hready1 & Hvis1).
  { by intros q. }
  destruct (event_ready b Acquire w1 _ Hready1 Hvis1)
    as (rs1 & w2 & Hrun1 & _ & _ & Hacq).
  destruct (Hacq eq_refl) as (t & -> & Ht & Hgl).
  destruct (Hvis1 p Hlast) as (t' & Ht' & Hshow).
  rewrite Ht in Ht'. injection Ht' as <-.
  exists rs, t, w2. split; [by eapply run_app|]. by rewrite Hgl.
Qed.

Lemma latest_picture_is_acquired_witness :
  let out := OutputCfg 0 false libvlc_video_colorspace_BT601
               libvlc_video_primaries_BT601_525 libvlc_video_transfer_func_LINEAR
               libvlc_video_orient_top_left in
  let w := (onUpdateOutput GLFW (RenderCfg 640 480) out
              (boot GLFW [# 7; 8; 9] [# 4; 5; 6] (GL.blank 4096))).2 in
  let es := [Publish 10; Acquire; Publish 11; Publish 12; Acquire; Acquire] in
  ∃ rs t w',
    run GLFW ((es ≫= calls_of) ++ [GetNextFrame]) w = (Returns (rs ++ [Handle t]), w')
    ∧ shows (gl w') t 12.
Proof.
  intros out w es. apply (latest_picture_is_acquired GLFW w es 12).
  - apply (onUpdateOutput_ready GLFW (RenderCfg 640 480) out
             (boot GLFW [# 7; 8; 9] [# 4; 5; 6] (GL.blank 4096))
             (true, descriptor GLFW out)).
    + apply wf_blank.
    + apply (initial_roles_ok GLFW).
      exists [# 7; 8; 9], [# 4; 5; 6], (GL.blank 4096). reflexivity.
    + vm_compute. reflexivity.
  - reflexivity.
Defined.

(** X5: the texture the display got from [getNextFrame] is its own until
    it asks again: however many pictures the decoder then draws and
    publishes, all these calls return and none of them writes to that
    texture. *)
Theorem acquired_texture_is_not_written b w t w1 ps :
  ring_ready w → getNextFrame w = (Returns t, w1) →
  ∃ rs w2,
    run b (ps ≫= λ p, [EngineDraw p; OnSwap]) w1 = (Returns rs, w2)
    ∧ GL.textures (gl w2) !! t = GL.textures (gl w1) !! t.
Proof.
  intros Hready Hget.
  assert (ring_ready w1
          ∧ vec_to_list (textures_ (self w1)) !! N.to_nat (frame_present_id_ (self w1))
            = Some t) as [Hready1 Ht].
  { destruct (frame_acquired_ (self w)) eqn:Hacq.
    - destruct (acquire_ready w Hready Hacq) as (tex & Htex & Hget' & Hready').
      rewrite Hget' in Hget. by simplify_eq.
    - destruct (acquire_idle_ready w Hready Hacq) as (tex & Htex & Hget').
      rewrite Hget' in Hget. by simplify_eq. }
  clear Hready Hget. revert w1 Hready1 Ht.
  induction ps as [|p ps IH]; intros w1 Hready1 Ht.
  - by exists [], w1.
  - destruct (publish_ready b w1 p Hready1)
      as (w2 & tex & Hrun & Hready2 & Hself & Htex & _ & Hother).
    assert (t ≠ tex) as Hne.
    { intros ->. destruct Hready1 as (Hroles & Hnd & _).
      pose proof (NoDup_lookup _ _ _ _ Hnd Ht Htex) as Heq.
      apply N2Nat.inj in Heq.
      by destruct (roles_ok_distinct _ Hroles) as (_ & _ & Hd). }
    destruct (IH w2 Hready2) as (rs & w3 & Hrun3 & Hsame).
    { by rewrite Hself. }
    exists ([Done; Done] ++ rs), w3. split.
    + cbn [mbind list_bind]. change (mbind ?f (p :: ps)) with (f p ++ mbind f ps).
      by eapply run_app.
    + by rewrite Hsame, Hother.
Qed.

Lemma acquired_texture_is_not_written_witness :
  let out := OutputCfg 0 false libvlc_video_colorspace_BT601
               libvlc_video_primaries_BT601_525 libvlc_video_transfer_func_LINEAR
               libvlc_video_orient_top_left in
  let w := (onUpdateOutput SDL (RenderCfg 640 480) out
              (boot SDL [# 0; 0; 0] [# 0; 0; 0] (GL.blank 4096))).2 in
  let w1 := (getNextFrame w).2 in
  ∃ rs w2,
    run SDL ([20; 21; 22] ≫= λ p, [EngineDraw p; OnSwap]) w1 = (Returns rs, w2)
    ∧ GL.textures (gl w2) !! 3 = GL.textures (gl w1) !! 3.
Proof.
  intros out w w1.
  apply (acquired_texture_is_not_written SDL w 3 w1 [20; 21; 22]).
  - apply (onUpdateOutput_ready SDL (RenderCfg 640 480) out
             (boot SDL [# 0; 0; 0] [# 0; 0; 0] (GL.blank 4096))
             (true, descriptor SDL out)).
    + apply wf_blank.
    + apply (initial_roles_ok SDL).
      exists [# 0; 0; 0], [# 0; 0; 0], (GL.blank 4096). reflexivity.
    + vm_compute. reflexivity.
  - vm_compute. reflexivity.
Defined.

(** *** Releasing, again *)

Lemma onUpdateOutput_wf b cfg out w :
  GL.wf (gl w) → GL.wf (gl (onUpdateOutput b cfg out w).2).
Proof.
  intros Hwf. pose proof (step_wf b (OnUpdateOutput cfg out) w) as H.
  unfold on_gl, stable in H. cbn [step] in H. rewrite bind_unfold in H.
  destruct (onUpdateOutput b cfg out w) as [[r|s] w']; by apply H.
Qed.

Lemma glDeleteTextures_other {n} (ts : vec N n) g k :
  k ∉ vec_to_list ts →
  GL.textures (GL.glDeleteTextures ts g) !! k = GL.textures g !! k.
Proof.
  unfold GL.glDeleteTextures. revert g.
  induction (vec_to_list ts) as [|t l IH]; intros g Hk; [done|].
  apply not_elem_of_cons in Hk as [Hne Hk]. cbn [foldl].
  rewrite IH by done. rewrite delete_texture_textures.
  case_decide; [done|]. by rewrite lookup_delete_ne.
Qed.

Lemma glDeleteTextures_absent {n} (ts : vec N n) g :
  (∀ t, t ∈ vec_to_list ts → t ≠ 0 → GL.textures g !! t = None) →
  GL.glDeleteTextures ts g = g.
Proof.
  unfold GL.glDeleteTextures.
  induction (vec_to_list ts) as [|t l IH]; intros H; [done|].
  cbn [foldl].
  assert (GL.delete_texture g t = g) as ->.
  { unfold GL.delete_texture. destruct (decide (t = 0)); [done|].
    rewrite H; [done|by left|done]. }
  apply IH. intros t' Ht'. apply H. by right.
Qed.

Lemma glDeleteFramebuffers_absent {n} (fs : vec N n) g :
  (∀ f, f ∈ vec_to_list fs → f ≠ 0 → GL.framebuffers g !! f = None) →
  GL.glDeleteFramebuffers fs g = g.
Proof.
  unfold GL.glDeleteFramebuffers.
  induction (vec_to_list fs) as [|f l IH]; intros H; [done|].
  cbn [foldl].
  assert (GL.delete_framebuffer g f = g) as ->.
  { unfold GL.delete_framebuffer. destruct (decide (f = 0)); [done|].
    rewrite H; [done|by left|done]. }
  apply IH. intros f' Hf'. apply H. by right.
Qed.

Lemma onCleanup_resources b w :
  self (onCleanup b w).2 = self w
  ∧ GL.resources (gl (onCleanup b w).2)
    = GL.resources
        (if bool_decide (0 < frame_width_ (self w))
            && bool_decide (0 < frame_height_ (self w))
         then GL.glDeleteFramebuffers (fbos_ (self w))
                (GL.glDeleteTextures (textures_ (self w)) (gl w))
         else gl w).
Proof.
  rewrite onCleanup_eq.
  destruct b; [rewrite bool_decide_eq_true_2 by done
              | by rewrite bool_decide_eq_false_2 by done].
  unfold when.
  match goal with |- context [CHECK_GL_ERRORS GLFW ?x] =>
    exact (CHECK_GL_ERRORS_resources GLFW x)
  end.
Qed.

(** X6: [onCleanup] releases the ring of the last allocation only.  When
    [onUpdateOutput] has returned twice (a re-negotiation), the three
    textures of the first allocation are not in the arrays any more, and
    after [onCleanup] they are still alive in the context, storage and
    all. *)
Theorem onCleanup_leaves_earlier_ring b cfg1 out1 cfg2 out2 w r1 w1 r2 w2 tex :
  GL.wf (gl w) →
  onUpdateOutput b cfg1 out1 w = (Returns r1, w1) →
  onUpdateOutput b cfg2 out2 w1 = (Returns r2, w2) →
  tex ∈ vec_to_list (textures_ (self w1)) →
  (tex ∉ vec_to_list (textures_ (self w2)))
  ∧ GL.textures (gl (onCleanup b w2).2) !! tex
    = Some (GL.Texture (width cfg1) (height cfg1) None).
Proof.
  intros Hwf Hrun1 Hrun2 (i & Hi)%list_elem_of_lookup.
  assert (GL.wf (gl w1)) as Hwf1.
  { pose proof (onUpdateOutput_wf b cfg1 out1 w Hwf) as H. by rewrite Hrun1 in H. }
  destruct (onUpdateOutput_new_pairs _ _ _ _ _ _ Hwf Hrun1) as (Hnew1 & _ & _).
  destruct (onUpdateOutput_new_pairs _ _ _ _ _ _ Hwf1 Hrun2) as (Hnew2 & Hkeep & _).
  assert (i < 3)%nat as Hlt.
  { apply lookup_lt_Some in Hi. by rewrite length_vec_to_list in Hi. }
  destruct (Hnew1 i Hlt) as (tex' & fbo' & Ht & _ & _ & _ & _ & _ & Htex & _).
  rewrite Hi in Ht. injection Ht as <-.
  assert (tex ∉ vec_to_list (textures_ (self w2))) as Hnot.
  { intros (j & Hj)%list_elem_of_lookup.
    assert (j < 3)%nat as Hjlt.
    { apply lookup_lt_Some in Hj. by rewrite length_vec_to_list in Hj. }
    destruct (Hnew2 j Hjlt) as (tex' & fbo'' & Ht & _ & _ & _ & Hfresh & _).
    rewrite Hj in Ht. injection Ht as <-. by rewrite Htex in Hfresh. }
  split; [done|].
  destruct (onCleanup_resources b w2) as [_ Hres].
  injection Hres as -> _ _ _.
  destruct (_ && _).
  - rewrite glDeleteFramebuffers_textures, glDeleteTextures_other by done.
    by apply Hkeep.
  - by apply Hkeep.
Qed.

Lemma onCleanup_leaves_earlier_ring_witness :
  let out := OutputCfg 0 false libvlc_video_colorspace_BT601
               libvlc_video_primaries_BT601_525 libvlc_video_transfer_func_LINEAR
               libvlc_video_orient_top_left in
  let w := boot GLFW [# 7; 8; 9] [# 4; 5; 6] (GL.blank 4096) in
  let w1 := (onUpdateOutput GLFW (RenderCfg 640 480) out w).2 in
  let w2 := (onUpdateOutput GLFW (RenderCfg 1280 720) out w1).2 in
  (2 ∉ vec_to_list (textures_ (self w2)))
  ∧ GL.textures (gl (onCleanup GLFW w2).2) !! 2 = Some (GL.Texture 640 480 None).
Proof.
  intros out w w1 w2.
  apply (onCleanup_leaves_earlier_ring GLFW (RenderCfg 640 480) out
           (RenderCfg 1280 720) out w (true, descriptor GLFW out) w1
           (true, descriptor GLFW out) w2 2).
  - apply wf_blank.
  - vm_compute. reflexivity.
  - vm_compute. reflexivity.
  - apply (bool_decide_unpack _). vm_compute. reflexivity.
Defined.

(** X7: a second [onCleanup] is harmless: whatever the state, calling
    [onCleanup] right after [onCleanup] changes neither the object nor the
    objects and bindings of the context (the names it deletes again are
    not in use any more, and OpenGL ignores them). *)
Theorem onCleanup_twice b w :
  let w1 := (onCleanup b w).2 in
  self (onCleanup b w1).2 = self w1
  ∧ GL.resources (gl (onCleanup b w1).2) = GL.resources (gl w1).
Proof.
  cbn zeta.
  destruct (onCleanup_resources b w) as [Hs1 Hr1].
  destruct (onCleanup_resources b (onCleanup b w).2) as [Hs2 Hr2].
  split; [done|]. rewrite Hr2, Hs1. clear Hr2 Hs2.
  destruct (bool_decide (0 < frame_width_ (self w))
            && bool_decide (0 < frame_height_ (self w))); [|done].
  injection Hr1 as Ht Hf _ _.
  rewrite (glDeleteTextures_absent (textures_ (self w))).
  - rewrite (glDeleteFramebuffers_absent (fbos_ (self w))); [done|].
    intros f Hin Hf0. rewrite Hf. by apply glDeleteFramebuffers_gone.
  - intros t Hin Ht0. rewrite Ht, glDeleteFramebuffers_textures.
    by apply glDeleteTextures_gone.
Qed.

(** *** How [onUpdateOutput] ends *)

Lemma bind_fst_returns {A B} (m : M A) (f : A → M B) w a w' :
  m w = (Returns a, w') → ((m ≫= f) w).1 = (f a w').1.
Proof. intros H. by rewrite (bind_returns _ _ _ _ _ H). Qed.

Lemma bind_fst_stops {A B} (m : M A) (f : A → M B) w s :
  (m w).1 = Stops s → ((m ≫= f) w).1 = Stops s.
Proof.
  rewrite bind_unfold. destruct (m w) as [[a|s'] w']; cbn; [done|]. by intros [= ->].
Qed.

Lemma CHECK_GL_ERRORS_eq b w :
  CHECK_GL_ERRORS b w =
  if decide (GL.error (gl w) = GL.GL_NO_ERROR)
  then (Returns (), World (self w) (GL.objects (gl w)) (cerr w))
  else match b with
       | GLFW => (Returns (),
                  World (self w) (GL.objects (gl w))
                        (cerr w ++ [GLError (GL.error (gl w))]))
       | SDL => (Stops AssertFailed, World (self w) (GL.objects (gl w)) (cerr w))
       end.
Proof.
  destruct w as [fc g l]. unfold CHECK_GL_ERRORS. run_M.
  destruct (decide _); [done|]. by destruct b.
Qed.

Lemma attach_new_error W H tex fbo g :
  fbo ≠ 0 →
  GL.error (GL.attach_new W H tex fbo g)
  = if decide (W ≤ GL.size_limit g ∧ H ≤ GL.size_limit g)
    then GL.error g
    else if decide (GL.error g = GL.GL_NO_ERROR) then GL.GL_INVALID_VALUE
         else GL.error g.
Proof.
  intros Hfbo. destruct g as [nt nf ts fs bt bf mx e].
  unfold GL.attach_new, GL.glBindTexture. cbn.
  assert (∀ g', GL.error
                  (GL.glFramebufferTexture2D tex (GL.glBindFramebuffer fbo g'))
                = GL.error g') as Hrest.
  { intros g'. destruct g'. unfold GL.glBindFramebuffer. cbn.
    rewrite decide_False by done.
    destruct (_ !! _); unfold GL.glFramebufferTexture2D; cbn;
      by rewrite decide_False by done. }
  rewrite Hrest. unfold GL.glTexImage2D.
  destruct (decide (tex = 0)); [|destruct (ts !! tex)]; cbn;
    by destruct (decide (_ ∧ _)).
Qed.

Lemma attach_new_max W H tex fbo g :
  GL.max_texture_size (GL.attach_new W H tex fbo g) = GL.max_texture_size g.
Proof.
  assert (∀ g', GL.max_texture_size (GL.glBindTexture tex g')
                = GL.max_texture_size g') as H1.
  { intros []. unfold GL.glBindTexture. cbn.
    destruct (decide (tex = 0)); [done|]. by destruct (_ !! _). }
  assert (∀ g', GL.max_texture_size (GL.glTexImage2D W H g')
                = GL.max_texture_size g') as H2.
  { intros []. unfold GL.glTexImage2D. cbn. by destruct (decide (_ ∧ _)). }
  assert (∀ g', GL.max_texture_size (GL.glBindFramebuffer fbo g')
                = GL.max_texture_size g') as H3.
  { intros []. unfold GL.glBindFramebuffer. cbn.
    destruct (decide (fbo = 0)); [done|]. by destruct (_ !! _). }
  assert (∀ g', GL.max_texture_size (GL.glFramebufferTexture2D tex g')
                = GL.max_texture_size g') as H4.
  { intros []. unfold GL.glFramebufferTexture2D. cbn.
    by destruct (decide (_ = 0)). }
  unfold GL.attach_new. by rewrite H4, H3, H2, H1.
Qed.

Lemma allocate_slot_eq b W H tex fbo w :
  allocate_slot b W H (tex, fbo) w
  = when (bool_decide (b = SDL)) (CHECK_GL_ERRORS b)
         (World (self w) (GL.attach_new W H tex fbo (gl w)) (cerr w)).
Proof. reflexivity. Qed.

Lemma when_print_eq c m w :
  when c (print m) w
  = (Returns (), World (self w) (gl w) (cerr w ++ if c then [m] else [])).
Proof. destruct w as [fc g l]. destruct c; cbn; [done|]. by rewrite app_nil_r. Qed.

(** The context after the three turns of the allocation loop, whether or
    not error checks cleared the flag in between. *)
Lemma attach_chain W H g0 g1 g2 g3 t f :
  0 < t → 0 < f →
  (∀ k, t ≤ k → GL.textures g0 !! k = None) →
  (∀ k, f ≤ k → GL.framebuffers g0 !! k = None) →
  GL.objects g1 = GL.objects (GL.attach_new W H t f g0) →
  GL.objects g2 = GL.objects (GL.attach_new W H (N.succ t) (N.succ f) g1) →
  GL.objects g3
  = GL.objects (GL.attach_new W H (N.succ (N.succ t)) (N.succ (N.succ f)) g2) →
  let X := if decide (W ≤ GL.size_limit g0 ∧ H ≤ GL.size_limit g0)
           then GL.Texture W H None else GL.Texture 0 0 None in
  GL.textures g3
  = <[N.succ (N.succ t) := X]> (<[N.succ t := X]> (<[t := X]> (GL.textures g0)))
  ∧ GL.framebuffers g3
    = <[N.succ (N.succ f) := Some (N.succ (N.succ t))]>
        (<[N.succ f := Some (N.succ t)]> (<[f := Some t]> (GL.framebuffers g0)))
  ∧ GL.framebuffer_binding g3 = N.succ (N.succ f).
Proof.
  intros Ht Hf Hts Hfs Ho1 Ho2 Ho3.
  rewrite attach_new_objects in Ho1; [|lia|lia|apply Hts; lia|apply Hfs; lia].
  destruct (objects_fields _ _ Ho1) as (_ & _ & Ec1 & Ed1 & _ & _ & Em1).
  cbn in Ec1, Ed1, Em1.
  rewrite attach_new_objects in Ho2;
    [|lia|lia
     |rewrite Ec1, lookup_insert_ne by lia; apply Hts; lia
     |rewrite Ed1, lookup_insert_ne by lia; apply Hfs; lia].
  rewrite Ec1, Ed1, Em1, (size_limit_eq _ _ Em1) in Ho2.
  destruct (objects_fields _ _ Ho2) as (_ & _ & Ec2 & Ed2 & _ & _ & Em2).
  cbn in Ec2, Ed2, Em2.
  rewrite attach_new_objects in Ho3;
    [|lia|lia
     |rewrite Ec2, !lookup_insert_ne by lia; apply Hts; lia
     |rewrite Ed2, !lookup_insert_ne by lia; apply Hfs; lia].
  rewrite Ec2, Ed2, Em2, (size_limit_eq _ _ Em2) in Ho3.
  destruct (objects_fields _ _ Ho3) as (_ & _ & Ec3 & Ed3 & _ & Eb3 & _).
  cbn in Ec3, Ed3, Eb3. done.
Qed.

Lemma complete_after_chain W H g0 g3 t f :
  0 < f → 0 < t →
  (let X := if decide (W ≤ GL.size_limit g0 ∧ H ≤ GL.size_limit g0)
            then GL.Texture W H None else GL.Texture 0 0 None in
   GL.textures g3
   = <[N.succ (N.succ t) := X]> (<[N.succ t := X]> (<[t := X]> (GL.textures g0)))
   ∧ GL.framebuffers g3
     = <[N.succ (N.succ f) := Some (N.succ (N.succ t))]>
         (<[N.succ f := Some (N.succ t)]> (<[f := Some t]> (GL.framebuffers g0)))
   ∧ GL.framebuffer_binding g3 = N.succ (N.succ f)) →
  GL.framebuffer_complete (GL.glBindTexture 0 g3)
  = bool_decide (W ≤ GL.size_limit g0 ∧ H ≤ GL.size_limit g0)
    && bool_decide (0 < W ∧ 0 < H).
Proof.
  intros Hf Ht (Ets & Efs & Eb). rewrite glBindTexture_0.
  unfold GL.framebuffer_complete, GL.render_target.
  replace (GL.framebuffer_binding (GL.set_texture_binding 0 g3))
    with (N.succ (N.succ f)) by by destruct g3.
  replace (GL.framebuffers (GL.set_texture_binding 0 g3))
    with (GL.framebuffers g3) by by destruct g3.
  replace (GL.textures (GL.set_texture_binding 0 g3))
    with (GL.textures g3) by by destruct g3.
  rewrite decide_False by lia. rewrite Efs, lookup_insert_eq. cbn.
  rewrite Ets, lookup_insert_eq.
  destruct (decide (W ≤ _ ∧ _)) as [Hfit|Hfit].
  - rewrite (bool_decide_eq_true_2 _ Hfit). done.
  - rewrite (bool_decide_eq_false_2 _ Hfit). cbn.
    apply bool_decide_eq_false_2. lia.
Qed.

Lemma loop_glfw W H s0 s1 s2 w :
  for_each (allocate_slot GLFW W H) [s0; s1; s2] w
  = (Returns (),
     World (self w)
       (GL.attach_new W H s2.1 s2.2
          (GL.attach_new W H s1.1 s1.2 (GL.attach_new W H s0.1 s0.2 (gl w))))
       (cerr w)).
Proof. by destruct s0, s1, s2. Qed.

Lemma allocate_slot_sdl W H tex fbo w :
  fbo ≠ 0 →
  allocate_slot SDL W H (tex, fbo) w
  = (if bool_decide (GL.error (gl w) = GL.GL_NO_ERROR)
        && bool_decide (W ≤ GL.size_limit (gl w)
                        ∧ H ≤ GL.size_limit (gl w))
     then Returns () else Stops AssertFailed,
     World (self w) (GL.objects (GL.attach_new W H tex fbo (gl w))) (cerr w)).
Proof.
  intros Hfbo. rewrite allocate_slot_eq, bool_decide_eq_true_2 by done.
  unfold when. rewrite CHECK_GL_ERRORS_eq. cbn [self gl cerr].
  rewrite attach_new_error by done.
  destruct (decide (W ≤ _ ∧ _)) as [Hfit|Hfit].
  - rewrite (bool_decide_eq_true_2 _ Hfit), andb_true_r.
    destruct (decide (GL.error (gl w) = GL.GL_NO_ERROR)) as [He|He].
    + by rewrite (bool_decide_eq_true_2 _ He).
    + by rewrite (bool_decide_eq_false_2 _ He).
  - rewrite (bool_decide_eq_false_2 _ Hfit), andb_false_r.
    destruct (decide (GL.error (gl w) = GL.GL_NO_ERROR)) as [He|He];
      by rewrite decide_False.
Qed.

Lemma loop_sdl W H t f t1 f1 t2 f2 w :
  f ≠ 0 → f1 ≠ 0 → f2 ≠ 0 →
  ∃ g3,
    for_each (allocate_slot SDL W H) [(t, f); (t1, f1); (t2, f2)] w
    = (if bool_decide (GL.error (gl w) = GL.GL_NO_ERROR)
          && bool_decide (W ≤ GL.size_limit (gl w)
                          ∧ H ≤ GL.size_limit (gl w))
       then Returns () else Stops AssertFailed,
       World (self w) g3 (cerr w))
    ∧ (bool_decide (GL.error (gl w) = GL.GL_NO_ERROR)
       && bool_decide (W ≤ GL.size_limit (gl w)
                       ∧ H ≤ GL.size_limit (gl w)) = true →
       GL.error g3 = GL.GL_NO_ERROR
       ∧ g3 = GL.objects
                (GL.attach_new W H t2 f2
                   (GL.objects
                      (GL.attach_new W H t1 f1
                         (GL.objects (GL.attach_new W H t f (gl w))))))).
Proof.
  intros Hf Hf1 Hf2. cbn [for_each].
  rewrite bind_unfold, allocate_slot_sdl by done.
  destruct (bool_decide (GL.error (gl w) = GL.GL_NO_ERROR)
            && bool_decide (W ≤ GL.size_limit (gl w)
                            ∧ H ≤ GL.size_limit (gl w))) eqn:Hok.
  2: { eexists. split; [reflexivity|done]. }
  apply andb_true_iff in Hok as [_ Hfit%bool_decide_eq_true].
  rewrite bind_unfold, allocate_slot_sdl by done. cbn [self gl cerr].
  replace (GL.size_limit (GL.objects (GL.attach_new W H t f (gl w))))
    with (GL.size_limit (gl w))
    by (symmetry; apply size_limit_eq, attach_new_max).
  rewrite (bool_decide_eq_true_2 _ Hfit). cbn [andb bool_decide].
  change (bool_decide (GL.error (GL.objects ?x) = GL.GL_NO_ERROR)) with true.
  cbn iota.
  rewrite bind_unfold, allocate_slot_sdl by done. cbn [self gl cerr].
  replace (GL.size_limit
             (GL.objects
                (GL.attach_new W H t1 f1
                   (GL.objects (GL.attach_new W H t f (gl w))))))
    with (GL.size_limit (gl w)).
  2: { symmetry. apply size_limit_eq.
       etrans; [apply attach_new_max|apply attach_new_max]. }
  rewrite (bool_decide_eq_true_2 _ Hfit).
  change (bool_decide (GL.error (GL.objects ?x) = GL.GL_NO_ERROR)) with true.
  cbn iota beta. eexists. split; [reflexivity|]. done.
Qed.

(** What follows the allocation loop in [onUpdateOutput]. *)
Lemma onUpdateOutput_tail b out (fbos : vec N 3) render fbo w3 :
  vec_to_list fbos !! N.to_nat render = Some fbo →
  (b = SDL → GL.error (gl w3) = GL.GL_NO_ERROR) →
  ((gl_do (GL.glBindTexture 0);;
    complete ← gl_read GL.framebuffer_complete;
    when (negb complete) (print IncompleteFbo;; stops ExitFailure);;
    when (bool_decide (b = SDL)) (CHECK_GL_ERRORS b);;
    fbo ← at_ fbos render;
    gl_do (GL.glBindFramebuffer fbo);;
    when (bool_decide (b = GLFW)) (CHECK_GL_ERRORS b);;
    mret (true,
          match b with
          | GLFW =>
            OutputCfg GL.GL_RGBA true libvlc_video_colorspace_BT709
                      libvlc_video_primaries_BT709 libvlc_video_transfer_func_SRGB
                      libvlc_video_orient_top_left
          | SDL =>
            OutputCfg GL.GL_RGBA true libvlc_video_colorspace_BT709
                      libvlc_video_primaries_BT709 libvlc_video_transfer_func_SRGB
                      (orientation out)
          end)) w3).1
  = if GL.framebuffer_complete (GL.glBindTexture 0 (gl w3))
    then Returns (true, descriptor b out) else Stops ExitFailure.
Proof.
  intros Hfbo Herr. destruct w3 as [fc g3 l]. cbn [gl] in *.
  erewrite bind_fst_returns; [|reflexivity].
  erewrite bind_fst_returns; [|reflexivity].
  cbn [self gl cerr].
  destruct (GL.framebuffer_complete (GL.glBindTexture 0 g3)).
  2: { apply bind_fst_stops. reflexivity. }
  erewrite bind_fst_returns; [|reflexivity].
  assert (∃ w4, when (bool_decide (b = SDL)) (CHECK_GL_ERRORS b)
                     (World fc (GL.glBindTexture 0 g3) l) = (Returns (), w4))
    as [w4 Hw4].
  { destruct b.
    - rewrite bool_decide_eq_false_2 by done. by eexists.
    - rewrite bool_decide_eq_true_2 by done. unfold when.
      rewrite CHECK_GL_ERRORS_eq. cbn [gl]. rewrite glBindTexture_0.
      replace (GL.error (GL.set_texture_binding 0 g3)) with (GL.error g3)
        by by destruct g3.
      rewrite decide_True by auto. by eexists. }
  erewrite bind_fst_returns; [|exact Hw4].
  erewrite bind_fst_returns; [|unfold at_; rewrite Hfbo; reflexivity].
  erewrite bind_fst_returns; [|reflexivity].
  assert (∃ w5, when (bool_decide (b = GLFW)) (CHECK_GL_ERRORS b)
                     (World (self w4) (GL.glBindFramebuffer fbo (gl w4)) (cerr w4))
                = (Returns (), w5)) as [w5 Hw5].
  { destruct b.
    - rewrite bool_decide_eq_true_2 by done. unfold when.
      match goal with |- context [CHECK_GL_ERRORS GLFW ?x] =>
        destruct (CHECK_GL_ERRORS_glfw_returns x) as (w5 & -> & _)
      end.
      by eexists.
    - rewrite bool_decide_eq_false_2 by done. by eexists. }
  erewrite bind_fst_returns; [|exact Hw5].
  by destruct b.
Qed.

(** How [onUpdateOutput] ends in the model, where a valid size is always
    given its storage. *)
Lemma onUpdateOutput_ends b cfg out w :
  GL.wf (gl w) → frame_render_id_ (self w) < 3 →
  (onUpdateOutput b cfg out w).1
  = let fits := bool_decide (width cfg ≤ GL.size_limit (gl w)
                             ∧ height cfg ≤ GL.size_limit (gl w)) in
    let visible := bool_decide (0 < width cfg ∧ 0 < height cfg) in
    match b with
    | GLFW => if fits && visible then Returns (true, descriptor GLFW out)
              else Stops ExitFailure
    | SDL => if bool_decide (GL.error (gl w) = GL.GL_NO_ERROR) && fits
             then if visible then Returns (true, descriptor SDL out)
                  else Stops ExitFailure
             else Stops AssertFailed
    end.
Proof.
  destruct w as [fc g l]. destruct cfg as [W H]. cbn [gl self width height].
  intros (Hnt & Hnf & _ & _ & Hts & Hfs) Hr.
  unfold onUpdateOutput.
  erewrite bind_fst_returns; [|reflexivity].
  erewrite bind_fst_returns; [|apply when_print_eq].
  do 6 (erewrite bind_fst_returns; [|reflexivity]).
  cbn [self gl cerr fst snd GL.glGenTextures GL.glGenFramebuffers GL.names
       set_frame_size set_fbos_ set_textures_ frame_width_ frame_height_
       textures_ fbos_ frame_render_id_ width height vec_to_list zip zip_with].
  replace (GL.next_framebuffer
             (GL.set_next_texture (GL.next_texture g + N.of_nat 3) g))
    with (GL.next_framebuffer g) by by destruct g.
  set (t := GL.next_texture g) in *. set (f := GL.next_framebuffer g) in *.
  set (g0 := GL.set_next_framebuffer _ _).
  assert (GL.textures g0 = GL.textures g ∧ GL.framebuffers g0 = GL.framebuffers g
          ∧ GL.size_limit g0 = GL.size_limit g
          ∧ GL.error g0 = GL.error g) as (Et0 & Ef0 & Em0 & Ee0) by by destruct g.
  rewrite <- Et0 in Hts. rewrite <- Ef0 in Hfs. rewrite <- Em0, <- Ee0.
  clearbody g0. clear Et0 Ef0 Em0 Ee0.
  generalize (l ++ (if bool_decide (frame_width_ fc ≠ W)
                       || bool_decide (frame_height_ fc ≠ H)
                    then [SizeChanged W H] else [])).
  intros l1.
  destruct (at_slot [# f; N.succ f; N.succ (N.succ f)] _ Hr) as [fbo Hfbo].
  destruct b.
  - erewrite bind_fst_returns; [|apply loop_glfw].
    cbn [self gl cerr fst snd].
    etrans; [apply (onUpdateOutput_tail GLFW out _ _ fbo); [exact Hfbo|done]|].
    cbn [gl].
    by rewrite (complete_after_chain W H g0 _ t f Hnf Hnt
                  (attach_chain W H g0 _ _ _ t f Hnt Hnf Hts Hfs
                     eq_refl eq_refl eq_refl)).
  - destruct (loop_sdl W H t f (N.succ t) (N.succ f) (N.succ (N.succ t))
                (N.succ (N.succ f))
                (World (set_frame_size W H
                          (set_fbos_ [# f; N.succ f; N.succ (N.succ f)]
                             (set_textures_ [# t; N.succ t; N.succ (N.succ t)] fc)))
                       g0 l1))
      as (g3 & Hloop & Hg3); [lia..|].
    cbn [self gl cerr] in Hloop, Hg3.
    destruct (bool_decide (GL.error g0 = GL.GL_NO_ERROR)
              && bool_decide (W ≤ GL.size_limit g0 ∧ H ≤ GL.size_limit g0))
      eqn:Hok.
    2: { apply bind_fst_stops. by rewrite Hloop. }
    destruct (Hg3 eq_refl) as [He3 ->].
    erewrite bind_fst_returns; [|exact Hloop].
    etrans; [apply (onUpdateOutput_tail SDL out _ _ fbo); [exact Hfbo|done]|].
    cbn [gl].
    set (g1 := GL.objects (GL.attach_new W H t f g0)).
    set (g2 := GL.objects (GL.attach_new W H (N.succ t) (N.succ f) g1)).
    set (g3 := GL.objects (GL.attach_new W H (N.succ (N.succ t))
                             (N.succ (N.succ f)) g2)).
    rewrite (complete_after_chain W H g0 g3 t f Hnf Hnt
               (attach_chain W H g0 g1 g2 g3 t f Hnt Hnf Hts Hfs
                  eq_refl eq_refl eq_refl)).
    apply andb_true_iff in Hok as [_ ->]. done.
Qed.

(** X8: when [onUpdateOutput] does not return, and how it then ends, in a
    context whose name counters are sound and with the render index in
    range.  A dimension fits when, as a [GLsizei], it is neither negative
    nor above the texture size limit of the context.  In [glfw_sample.cpp]
    a dimension that does not fit, or a zero dimension, ends the process
    with [exit(EXIT_FAILURE)].  In [sdl_opengl.cpp] a pending OpenGL error
    or a dimension that does not fit fails the [assert] of the first turn
    of the loop; without these, a zero dimension ends the process with
    [exit(EXIT_FAILURE)].  So the call returns only for positive
    dimensions that fit and, in [sdl_opengl.cpp], with no error pending. *)
Theorem onUpdateOutput_failure_paths b cfg out w :
  GL.wf (gl w) → frame_render_id_ (self w) < 3 →
  let fits := bool_decide (width cfg ≤ GL.size_limit (gl w)
                           ∧ height cfg ≤ GL.size_limit (gl w)) in
  let visible := bool_decide (0 < width cfg ∧ 0 < height cfg) in
  let clean := bool_decide (GL.error (gl w) = GL.GL_NO_ERROR) in
  match b with
  | GLFW =>
    fits && visible = false →
    (onUpdateOutput b cfg out w).1 = Stops ExitFailure
  | SDL =>
    (clean && fits = false →
     (onUpdateOutput b cfg out w).1 = Stops AssertFailed)
    ∧ (clean && fits = true → visible = false →
       (onUpdateOutput b cfg out w).1 = Stops ExitFailure)
  end
  ∧ (∀ r, (onUpdateOutput b cfg out w).1 = Returns r →
          fits && visible = true ∧ (b = SDL → clean = true)).
Proof.
  intros Hwf Hr fits visible clean.
  pose proof (onUpdateOutput_ends b cfg out w Hwf Hr) as Hends.
  cbn zeta in Hends. fold fits visible clean in Hends.
  rewrite Hends. clear Hends.
  destruct b; split.
  - by intros ->.
  - intros r. by destruct (fits && visible).
  - split; [by intros ->|]. by intros -> ->.
  - intros r. destruct clean, fits, visible; by cbn.
Qed.

Lemma onUpdateOutput_failure_paths_witness :
  let out := OutputCfg 0 false libvlc_video_colorspace_BT601
               libvlc_video_primaries_BT601_525 libvlc_video_transfer_func_LINEAR
               libvlc_video_orient_bottom_right in
  let w := boot SDL [# 0; 0; 0] [# 0; 0; 0] (GL.blank 4096) in
  let huge := boot GLFW [# 0; 0; 0] [# 0; 0; 0] (GL.blank 4294967295) in
  (onUpdateOutput SDL (RenderCfg 0 480) out w).1 = Stops ExitFailure
  ∧ (onUpdateOutput SDL (RenderCfg 5000 480) out w).1 = Stops AssertFailed
  ∧ (onUpdateOutput GLFW (RenderCfg 4294967295 480) out huge).1 = Stops ExitFailure.
Proof.
  intros out w huge.
  assert (Hwf : GL.wf (gl w)) by apply wf_blank.
  assert (Hid : frame_render_id_ (self w) < 3) by reflexivity.
  assert (Hwf' : GL.wf (gl huge)) by apply wf_blank.
  assert (Hid' : frame_render_id_ (self huge) < 3) by reflexivity.
  split; [|split].
  - destruct (onUpdateOutput_failure_paths SDL (RenderCfg 0 480) out w Hwf Hid)
      as [[_ Hexit] _].
    apply Hexit; vm_compute; reflexivity.
  - destruct (onUpdateOutput_failure_paths SDL (RenderCfg 5000 480) out w Hwf Hid)
      as [[Hassert _] _].
    apply Hassert; vm_compute; reflexivity.
  - destruct (onUpdateOutput_failure_paths GLFW (RenderCfg 4294967295 480) out
                huge Hwf' Hid') as [Hexit _].
    apply Hexit; vm_compute; reflexivity.
Defined.

(** ** The player *)

Lemma players_medias (uris : list string) (p : VLCPlayer) :
  medias_ (foldl (λ p uri, (addMedia uri p).1) p uris) = medias_ p ++ uris
  ∧ current_media_id_ (foldl (λ p uri, (addMedia uri p).1) p uris)
    = current_media_id_ p.
Proof.
  revert p. induction uris as [|uri uris IH]; intros p; cbn [foldl].
  - by rewrite app_nil_r.
  - destruct (IH (addMedia uri p).1) as [-> ->]. cbn.
    by rewrite <- app_assoc.
Qed.

Lemma currentMedia_first (b : backend) (uri : string) (uris : list string) :
  currentMedia b (foldl (λ p uri, (addMedia uri p).1) VLCPlayer_new (uri :: uris))
  = Returns uri.
Proof.
  unfold currentMedia.
  destruct (players_medias (uri :: uris) VLCPlayer_new) as [-> ->].
  cbn [VLCPlayer_new medias_ current_media_id_ app].
  change (0 mod 2 ^ 64)%Z with 0%Z.
  rewrite (bool_decide_eq_true_2 (0 < _)%Z) by (cbn [length]; lia).
  by rewrite andb_false_r.
Qed.

(** X9.  The labels of [toString] tell the values apart: two values of
    [VLC::Media::Type] with the same label are the same value or are both
    values the switch does not name, and likewise for
    [VLC::Media::ParsedStatus]; in particular the label of [Type::Unknown]
    is not the label of the default case. *)
Theorem toString_labels_distinct :
  (∀ a b, toString_Type a = toString_Type b →
     a = b ∨ ∃ x y, a = Media.OtherType x ∧ b = Media.OtherType y)
  ∧ (∀ a b, toString_ParsedStatus a = toString_ParsedStatus b →
     a = b ∨ ∃ x y, a = Media.OtherStatus x ∧ b = Media.OtherStatus y).
Proof.
  split; intros a b; destruct a, b; cbn; intros H;
    first [discriminate H | by left | right; eauto].
Qed.

(** X10.  After any number of [addMedia] calls on a new player, [play]
    fails its assertion when nothing was added, and otherwise sets the
    first media added, whatever was added after it, and plays. *)
Theorem play_after_addMedia (b : backend) (uris : list string) :
  play b (foldl (λ p uri, (addMedia uri p).1) VLCPlayer_new uris)
  = match uris with
    | [] => Stops AssertFailed
    | uri :: _ => Returns [SetMedia uri; Play]
    end.
Proof.
  destruct uris as [|uri uris]; [done|].
  unfold play. rewrite currentMedia_first.
  destruct (players_medias (uri :: uris) VLCPlayer_new) as [-> _].
  done.
Qed.

Ltac in_list H :=
  repeat first
    [ apply elem_of_nil in H; destruct H
    | apply elem_of_cons in H as [H|H] ].

(** X11.  When a media of a player with at least one media is parsed, the
    handler returns; it leaves the list of subitems unlocked, sets a media
    only if the first media added is a playlist, and then to the first
    subitem of that playlist; if the first media is not a playlist, it
    neither locks nor sets nor plays anything. *)
Theorem onParsedChanged_first_subitem (b : backend) (lib : library)
    (status : Media.ParsedStatus) (uri : string) (uris : list string) :
  ∃ calls,
    onParsedChanged b lib status
      (foldl (λ p uri, (addMedia uri p).1) VLCPlayer_new (uri :: uris))
    = Returns calls
    ∧ lock_depth calls = Some O
    ∧ (∀ m, SetMedia m ∈ calls →
         media_type lib uri = Media.Playlist
         ∧ head (media_subitems lib uri) = Some m)
    ∧ (media_type lib uri ≠ Media.Playlist →
         ∀ c, c ∈ calls → ∃ l, c = Say l).
Proof.
  unfold onParsedChanged. rewrite currentMedia_first.
  eexists; split; [reflexivity|].
  destruct b, (media_type lib uri) eqn:Ht, (media_subitems lib uri) eqn:Hs;
    cbn; (split; [reflexivity|]); split.
  all: first
    [ intros m Hm; in_list Hm; first [discriminate Hm | by injection Hm as ->]
    | intros Hne c Hc; first [done | in_list Hc; subst c; eauto] ].
Qed.

(** ** A session from negotiation to cleanup *)

Lemma names3_elem t k :
  k ∈ vec_to_list (GL.names 3 t) ↔ t ≤ k < t + 3.
Proof. cbn. rewrite !elem_of_cons, elem_of_nil. lia. Qed.

Lemma session_start b cfg out w r w1 :
  GL.wf (gl w) → onUpdateOutput b cfg out w = (Returns r, w1) →
  in_session (GL.next_texture (gl w)) (GL.next_framebuffer (gl w)) (gl w) w1.
Proof.
  intros Hwf Hrun.
  destruct (onUpdateOutput_returns _ _ _ _ _ _ Hwf Hrun)
    as ((_ & _ & HW & HH) & Hself & fbo & Hfbo & Hobj & _).
  destruct (objects_fields _ _ Hobj) as (_ & _ & Ht & Hf & _ & Hb & _).
  cbn in Ht, Hf, Hb.
  set (t := GL.next_texture (gl w)) in *.
  set (f := GL.next_framebuffer (gl w)) in *.
  unfold in_session. rewrite Hself, Ht, Hf, Hb.
  cbn [textures_ fbos_ frame_width_ frame_height_].
  split; [done|]. split; [done|]. split; [done|]. split; [|split; [|split]].
  - intros k Hk. rewrite names3_elem in Hk.
    by rewrite !lookup_insert_ne by lia.
  - intros k Hk. rewrite names3_elem in Hk.
    by rewrite !lookup_insert_ne by lia.
  - intros k Hk. apply names3_elem in Hk.
    destruct (decide (k = f)) as [->|];
      [|destruct (decide (k = N.succ f)) as [->|];
        [|assert (k = N.succ (N.succ f)) as -> by lia]].
    + exists t. rewrite !lookup_insert_ne by lia. rewrite lookup_insert_eq.
      split; [done|]. apply names3_elem. lia.
    + exists (N.succ t). rewrite !lookup_insert_ne by lia. rewrite lookup_insert_eq.
      split; [done|]. apply names3_elem. lia.
    + exists (N.succ (N.succ t)). rewrite lookup_insert_eq.
      split; [done|]. apply names3_elem. lia.
  - by apply list_elem_of_lookup_2 in Hfbo.
Qed.

Lemma in_session_resources t f g0 w w' :
  self w' = self w → GL.resources (gl w') = GL.resources (gl w) →
  in_session t f g0 w → in_session t f g0 w'.
Proof.
  unfold in_session, GL.resources. intros -> [= -> -> _ ->]. done.
Qed.

Lemma session_step b c t f g0 w r w' :
  steady c = true → in_session t f g0 w → step b c w = (Returns r, w') →
  in_session t f g0 w'.
Proof.
  intros Hc (Hts & Hfs & Hsize & Htex & Hfb & Hatt & Hbind) Hstep.
  destruct c; try discriminate Hc; cbn [step] in Hstep.
  - apply bind_inv in Hstep as (x & w1 & Hget & [= _ <-]).
    rewrite getNextFrame_eq in Hget. cbn zeta in Hget.
    destruct (frame_acquired_ (self w)); destruct (_ !! _); simplify_eq;
      unfold in_session; cbn; done.
  - apply bind_inv in Hstep as ([] & w1 & Hswap & [= _ <-]).
    rewrite onSwap_eq in Hswap. cbn zeta in Hswap.
    destruct (_ !! _) as [fbo|] eqn:Hfbo; [|done].
    apply list_elem_of_lookup_2 in Hfbo. cbn [swap_render_swap fbos_] in Hfbo.
    rewrite Hfs in Hfbo.
    apply when_CHECK_returns in Hswap as (Hself & Hobj & _).
    cbn [self gl] in Hself, Hobj.
    destruct (Hatt _ Hfbo) as (x & Hx & _).
    assert (GL.glBindFramebuffer fbo (gl w) = GL.set_framebuffer_binding fbo (gl w)) as Hb.
    { unfold GL.glBindFramebuffer. case_decide; [done|]. by rewrite Hx. }
    rewrite Hb in Hobj.
    apply objects_fields in Hobj as (_ & _ & Ht' & Hf' & _ & Hb' & _).
    cbn in Ht', Hf', Hb'.
    unfold in_session. rewrite Hself, Ht', Hf', Hb'. cbn. done.
  - apply bind_inv in Hstep as ([] & w1 & Hdraw & [= _ <-]).
    unfold engine_draw, gl_do in Hdraw. injection Hdraw as <-.
    unfold in_session. cbn [self gl].
    destruct (Hatt _ Hbind) as (x & Hx & Hxin).
    assert (GL.render_target (gl w) = Some x) as Htarget.
    { unfold GL.render_target. by rewrite Hx. }
    unfold GL.draw. rewrite Htarget. cbn.
    split; [done|]. split; [done|]. split; [done|]. split; [|done].
    intros k Hk. rewrite lookup_alter_ne; [by apply Htex|].
    by intros ->.
Qed.

Lemma session_run b cs t f g0 w rs w' :
  forallb steady cs = true → in_session t f g0 w →
  run b cs w = (Returns rs, w') → in_session t f g0 w'.
Proof.
  revert w rs. induction cs as [|c cs IH]; intros w rs Hcs Hin Hrun.
  - by injection Hrun as _ <-.
  - cbn in Hcs. apply andb_true_iff in Hcs as [Hc Hcs].
    apply run_cons_inv in Hrun as (r & w1 & rs' & Hstep & Hrun & ->).
    eapply IH; [done| |done]. by eapply session_step.
Qed.

Lemma delete_texture_framebuffers g t :
  GL.framebuffer_binding (GL.delete_texture g t) = GL.framebuffer_binding g
  ∧ ∀ k, k ≠ GL.framebuffer_binding g →
         GL.framebuffers (GL.delete_texture g t) !! k = GL.framebuffers g !! k.
Proof.
  unfold GL.delete_texture. case_decide; [done|].
  destruct (GL.textures g !! t); [|done]. cbn zeta.
  repeat case_decide; cbn; split; try done;
    intros k Hk; by rewrite lookup_insert_ne.
Qed.

Lemma glDeleteTextures_framebuffers {n} (ts : vec N n) g k :
  k ≠ GL.framebuffer_binding g →
  GL.framebuffers (GL.glDeleteTextures ts g) !! k = GL.framebuffers g !! k.
Proof.
  unfold GL.glDeleteTextures. revert g.
  induction (vec_to_list ts) as [|t l IH]; intros g Hk; [done|].
  cbn [foldl]. destruct (delete_texture_framebuffers g t) as [Hb Hf].
  rewrite IH by by rewrite Hb. by apply Hf.
Qed.

Lemma glDeleteFramebuffers_other {n} (fs : vec N n) g k :
  k ∉ vec_to_list fs →
  GL.framebuffers (GL.glDeleteFramebuffers fs g) !! k = GL.framebuffers g !! k.
Proof.
  unfold GL.glDeleteFramebuffers. revert g.
  induction (vec_to_list fs) as [|f l IH]; intros g Hk; [done|].
  apply not_elem_of_cons in Hk as [Hne Hk]. cbn [foldl].
  rewrite IH by done. rewrite delete_framebuffer_framebuffers.
  case_decide; [done|]. by rewrite lookup_delete_ne.
Qed.

Lemma session_cleanup b t f g0 w :
  0 < t → 0 < f →
  (∀ k, t ≤ k → GL.textures g0 !! k = None) →
  (∀ k, f ≤ k → GL.framebuffers g0 !! k = None) →
  in_session t f g0 w →
  GL.textures (gl (onCleanup b w).2) = GL.textures g0
  ∧ GL.framebuffers (gl (onCleanup b w).2) = GL.framebuffers g0.
Proof.
  intros Ht Hf Hts Hfs (Htexs & Hfbos & [HW HH] & Htex & Hfb & Hatt & Hbind).
  destruct (onCleanup_resources b w) as [_ Hres].
  rewrite !bool_decide_eq_true_2 in Hres by done. cbn [andb] in Hres.
  unfold GL.resources in Hres. injection Hres as -> -> _ _.
  rewrite Htexs, Hfbos. split; apply map_eq; intros k.
  - rewrite glDeleteFramebuffers_textures.
    destruct (decide (k ∈ vec_to_list (GL.names 3 t))) as [Hk|Hk].
    + rewrite glDeleteTextures_gone; [|done|apply names3_elem in Hk; lia].
      symmetry. apply Hts. apply names3_elem in Hk. lia.
    + rewrite glDeleteTextures_other by done. by apply Htex.
  - destruct (decide (k ∈ vec_to_list (GL.names 3 f))) as [Hk|Hk].
    + rewrite glDeleteFramebuffers_gone; [|done|apply names3_elem in Hk; lia].
      symmetry. apply Hfs. apply names3_elem in Hk. lia.
    + rewrite glDeleteFramebuffers_other by done.
      rewrite glDeleteTextures_framebuffers by (by intros ->).
      by apply Hfb.
Qed.

(** X12.  A session leaves nothing behind: when [onUpdateOutput] has
    returned once, and only [getNextFrame], [onSwap] and drawing follow,
    all of them returning, [onCleanup] leaves the context with exactly the
    textures and framebuffers it had before [onUpdateOutput]: the six
    objects of the ring are deleted, and no other is touched. *)
Theorem session_leaves_nothing_behind b cfg out w r w1 cs rs w2 :
  GL.wf (gl w) →
  onUpdateOutput b cfg out w = (Returns r, w1) →
  forallb steady cs = true →
  run b cs w1 = (Returns rs, w2) →
  GL.textures (gl (onCleanup b w2).2) = GL.textures (gl w)
  ∧ GL.framebuffers (gl (onCleanup b w2).2) = GL.framebuffers (gl w).
Proof.
  intros Hwf Hupd Hcs Hrun.
  pose proof (session_start _ _ _ _ _ _ Hwf Hupd) as Hin.
  pose proof (session_run _ _ _ _ _ _ _ _ Hcs Hin Hrun) as Hin2.
  destruct Hwf as (Hnt & Hnf & _ & _ & Hts & Hfs).
  by apply (session_cleanup b _ _ _ _ Hnt Hnf Hts Hfs Hin2).
Qed.

Lemma session_leaves_nothing_behind_witness :
  let out := OutputCfg 0 false libvlc_video_colorspace_BT601
               libvlc_video_primaries_BT601_525 libvlc_video_transfer_func_LINEAR
               libvlc_video_orient_top_left in
  let g := GL.glBindTexture 1 (GL.blank 4096) in
  let w := boot GLFW [# 7; 8; 9] [# 4; 5; 6] g in
  let w1 := (onUpdateOutput GLFW (RenderCfg 640 480) out w).2 in
  let w2 := (run GLFW [EngineDraw 7; OnSwap; GetNextFrame] w1).2 in
  GL.textures (gl (onCleanup GLFW w2).2) = GL.textures g
  ∧ GL.framebuffers (gl (onCleanup GLFW w2).2) = GL.framebuffers g.
Proof.
  intros out g w w1 w2.
  apply (session_leaves_nothing_behind GLFW (RenderCfg 640 480) out w
           (true, descriptor GLFW out) w1 [EngineDraw 7; OnSwap; GetNextFrame]
           [Done; Done; Handle 2] w2).
  - apply wf_glBindTexture, wf_blank.
  - vm_compute. reflexivity.
  - reflexivity.
  - vm_compute. reflexivity.
Defined.
